(** * The panel-construction pipeline of msc-thesis

    A shallow embedding of the tabular code of the repository: the cleaning
    script [code/2-cleaning-data.py], the crosswalk aggregation
    [code/2-crosswalk_ind1990_to_nace2.py], the shift-share construction
    [code/1-share-shift-weights.py], the loader of [code/1-datacheck.py],
    the panel preparation of [code/_equation_utils.py] and the per-industry
    gate of [code/7-equation5-industry-heterogeneity-coverage.py].

    A data frame is a list of rows in frame order.  A numeric cell is
    missing ([NaN]), infinite, or a finite number kept exact as a rational:
    the rounding and the overflow of float arithmetic are left out.  The
    result of [np.log] is kept symbolically by its argument. *)

From Stdlib Require Import QArith Lqa.
From stdpp Require Import gmap strings list sorting pretty.

Local Open Scope string_scope.

(** ** Numeric cells *)

Module Cell.

(** A float64 cell of a numeric column: [NaN] is pandas' missing value,
    [Num q] a finite number and [Inf negative] one of the two infinities,
    which pandas reads from a file and counts as present. *)
Inductive cell : Type :=
| NaN
| Num (q : Q)
| Inf (negative : bool).

Definition notna (c : cell) : bool :=
  match c with NaN => false | _ => true end.

Definition finite (c : cell) : bool :=
  match c with Num _ => true | _ => false end.

Definition infinite (c : cell) : bool :=
  match c with Inf _ => true | _ => false end.

(** Equality of cells up to the value of the fraction. *)
Definition cell_equiv (a b : cell) : Prop :=
  match a, b with
  | NaN, NaN => True
  | Num x, Num y => (x == y)%Q
  | Inf s, Inf t => s = t
  | _, _ => False
  end.

(** The cell with its fraction in lowest terms. *)
Definition cell_red (c : cell) : cell :=
  match c with Num q => Num (Qred q) | other => other end.

Definition negative (q : Q) : bool := negb (Qle_bool 0 q).

(** [x == 0] on a float. *)
Definition is_zero (c : cell) : bool :=
  match c with Num q => Qeq_bool q 0 | _ => false end.

(** Elementwise float arithmetic: a missing operand gives a missing result,
    and so do [inf * 0], [inf - inf] and [inf / inf]. *)
Definition cell_mul (a b : cell) : cell :=
  match a, b with
  | Num x, Num y => Num (x * y)
  | Inf s, Inf t => Inf (xorb s t)
  | Inf s, Num y | Num y, Inf s =>
      if Qeq_bool y 0 then NaN else Inf (xorb s (negative y))
  | _, _ => NaN
  end.

Definition cell_sub (a b : cell) : cell :=
  match a, b with
  | Num x, Num y => Num (x - y)
  | Inf s, Inf t => if Bool.eqb s t then NaN else Inf s
  | Inf s, Num _ => Inf s
  | Num _, Inf t => Inf (negb t)
  | _, _ => NaN
  end.

Definition cell_add (a b : cell) : cell :=
  match a, b with
  | Num x, Num y => Num (x + y)
  | Inf s, Inf t => if Bool.eqb s t then Inf s else NaN
  | Inf s, Num _ | Num _, Inf s => Inf s
  | _, _ => NaN
  end.

(** Float division; a divisor of zero is taken as [+0.0] (the sign of a
    zero is not kept). *)
Definition cell_div (a b : cell) : cell :=
  match a, b with
  | Num x, Num y =>
      if Qeq_bool y 0
      then (if Qeq_bool x 0 then NaN else Inf (negative x))
      else Num (x / y)
  | Num _, Inf _ => Num 0
  | Inf s, Num y => Inf (xorb s (negative y))
  | _, _ => NaN
  end.

(** [a < b] and [a <= b] on floats: false when an operand is NaN. *)
Definition cell_lt (a b : cell) : Prop :=
  match a, b with
  | NaN, _ | _, NaN => False
  | Num x, Num y => (x < y)%Q
  | Inf true, Inf true | Inf false, _ | Num _, Inf true => False
  | Inf true, _ | Num _, Inf false => True
  end.

Definition cell_le (a b : cell) : Prop :=
  match a, b with
  | NaN, _ | _, NaN => False
  | Inf true, _ | _, Inf false => True
  | Num x, Num y => (x <= y)%Q
  | _, _ => False
  end.

(** [Series.dropna()]: the values present, the infinite ones among them. *)
Definition dropna (s : list cell) : list cell :=
  filter (fun c => notna c = true) s.

(** The finite values of a series. *)
Fixpoint valid (s : list cell) : list Q :=
  match s with
  | [] => []
  | Num q :: s' => q :: valid s'
  | _ :: s' => valid s'
  end.

Definition Qsum (l : list Q) : Q := fold_right Qplus 0%Q l.

Definition Qlen {A} (l : list A) : Q := inject_Z (Z.of_nat (length l)).

(** [Series.sum()]: missing values are skipped, the empty sum is 0; an
    infinite term makes the sum infinite, infinite terms of both signs make
    it NaN. *)
Definition cell_sum (s : list cell) : cell :=
  fold_right cell_add (Num 0) (dropna s).

(** [Series.mean()]: the sum of the values present over their number, NaN
    when there is none. *)
Definition cell_mean (s : list cell) : cell :=
  match dropna s with
  | [] => NaN
  | v =>
      match cell_sum v with
      | Num total => Num (total / Qlen v)
      | other => other
      end
  end.

(** [Series.clip(lower=lo)]: NaN stays NaN. *)
Definition clip_lower (lo : Q) (c : cell) : cell :=
  match c with
  | NaN => NaN
  | Num q => if Qle_bool lo q then Num q else Num lo
  | Inf false => Inf false
  | Inf true => Num lo
  end.

(** [Series.replace(0, np.nan)]. *)
Definition replace_zero (c : cell) : cell :=
  match c with
  | Num q => if Qeq_bool q 0 then NaN else Num q
  | other => other
  end.

(** The result of [np.log] on a cell.  [Ln q] stands for the natural
    logarithm of the positive number [q], a finite float. *)
Inductive lncell : Type :=
| LNaN
| LNegInf
| Ln (q : Q)
| LPosInf.

(** [np.log]: NaN on a missing or negative argument, -inf at zero, inf at
    inf. *)
Definition np_log (c : cell) : lncell :=
  match c with
  | NaN => LNaN
  | Num q =>
      if Qlt_le_dec 0 q then Ln q
      else if Qeq_bool q 0 then LNegInf
      else LNaN
  | Inf false => LPosInf
  | Inf true => LNaN
  end.

Definition ln_notna (v : lncell) : bool :=
  match v with LNaN => false | _ => true end.

Definition ln_finite (v : lncell) : bool :=
  match v with Ln _ => true | _ => false end.

End Cell.

Export Cell.

(** ** Files and exceptions *)

Module Py.

(** The exceptions a loader meets: the file is not there, or the pandas
    reader fails on its contents (the text of the failure is kept); and the
    [ValueError] of a conversion to [int]. *)
Inductive exn : Type :=
| FileNotFoundError (path : string)
| ReaderError (msg : string)
| ValueError (msg : string).

(** The result of a call: an exception raised, or a value returned. *)
Definition result (A : Type) : Type := exn + A.

(** The data directory: the contents of the files that exist, by name. *)
Abbreviation data_dir file := (gmap string file).

End Py.

(** ** code/1-datacheck.py *)

Module DataCheck.
Import Py.


Section Load.
Context {file frame : Type}.
(** The pandas reader chosen by [reader] ([pd.read_csv] or [pd.read_excel]). *)
Variable reader : file -> result frame.

(** [load_safe(path, reader)], lines 56-62: [None] when the file does not
    exist or the reader raises. *)
Definition load_safe (dir : data_dir file) (path : string)
  : result (option frame) :=
  match dir !! path with
  | None => inr None
  | Some f =>
      match reader f with
      | inl _ => inr None
      | inr df => inr (Some df)
      end
  end.

End Load.

Section Sources.
Context {file frame : Type}.
Variable reader : file -> result frame.

(** Lines 84-85: the GDP file under its misspelt name, and under the
    other name when that gave nothing. *)
Definition eurostat_gdp (dir : data_dir file) : result (option frame) :=
  match load_safe reader dir "eurostata_gdp_nama_10_gdp.csv" with
  | inr None => load_safe reader dir "eurostat_gdp_nama_10_gdp.csv"
  | loaded => loaded
  end.

End Sources.

(** [set(range(1995, 2020))], in ascending order. *)
Definition TARGET_YEARS : list Z := seqZ 1995 25.

(** [astype(int)] and [int()] on a finite float: the fraction is cut off,
    towards zero. *)
Definition astype_int (q : Q) : Z := Z.quot (Qnum q) (Z.pos (Qden q)).

(** Line 67, on a year column of a numeric dtype, which [pd.to_numeric]
    leaves as it is: the years of the column.  [astype(int)] raises on an
    infinite value.  (A column with a token that is no number has the
    object dtype, where line 72 compares and converts text; it is not
    covered.) *)
Definition years_present (year_col : list cell) : result (list Z) :=
  if existsb infinite year_col
  then inl (ValueError "Cannot convert non-finite values (NA or inf) to integer")
  else inr (map astype_int (valid year_col)).

(** Line 68: [sorted(TARGET_YEARS - years)]. *)
Definition missing_years (years : list Z) : list Z :=
  filter (fun y => y ∉ years) TARGET_YEARS.

(** What [check_years] logs: the warning of line 70 with the first five
    missing years and whether there are more, or the range of line 72. *)
Inductive report : Type :=
| Warned (years : list Z) (more : bool)
| Confirmed (first last : Z).

(** [Series.min()] and [Series.max()] of the finite values [x :: l]. *)
Definition Qleast (x : Q) (l : list Q) : Q :=
  fold_right (fun a b => if Qle_bool a b then a else b) x l.

Definition Qgreatest (x : Q) (l : list Q) : Q :=
  fold_right (fun a b => if Qle_bool a b then b else a) x l.

(** [check_years(df, year_col, name)], lines 65-73, on a numeric column:
    True if all target years are present.  On line 72 [int()] raises on the
    NaN that [min()] gives for a column without a value. *)
Definition check_years (year_col : list cell) : result (bool * report) :=
  match years_present year_col with
  | inl e => inl e
  | inr years =>
      match missing_years years with
      | [] =>
          match valid year_col with
          | [] => inl (ValueError "cannot convert float NaN to integer")
          | x :: l =>
              inr (true, Confirmed (astype_int (Qleast x l))
                                   (astype_int (Qgreatest x l)))
          end
      | missing => inr (false, Warned (take 5 missing) (5 <? length missing)%nat)
      end
  end.

End DataCheck.

(** ** code/2-crosswalk_ind1990_to_nace2.py *)

Module Crosswalk.

(** A row of the merged weights frame [wm], as far as [wavg] reads it. *)
Record wm_row : Type := {
  replaceability_ind : cell;
  w_ind : cell
}.

(** [wavg(group)], lines 31-36. *)
Definition wavg (group : list wm_row) : cell :=
  let x := map replaceability_ind group in
  let wgt := map w_ind group in
  if is_zero (cell_sum wgt) then cell_mean x
  else cell_div (cell_sum (zip_with cell_mul x wgt)) (cell_sum wgt).

(** The entries of one canonical bucket with their value and weight given. *)
Definition entries (g : list (Q * Q)) : list wm_row :=
  map (fun vw => {| replaceability_ind := Num (fst vw); w_ind := Num (snd vw) |}) g.

Definition weight_total (g : list (Q * Q)) : Q := Qsum (map snd g).

Definition weighted_total (g : list (Q * Q)) : Q :=
  Qsum (map (fun vw => fst vw * snd vw)%Q g).

Definition unweighted_mean (g : list (Q * Q)) : cell :=
  match g with
  | [] => NaN
  | _ => Num (Qsum (map fst g) / Qlen (map fst g))
  end.

End Crosswalk.

(** ** Data-frame operations of pandas *)

Module Frame.

Section Merge.
Context {A B K : Type} `{EqDecision K}.
Variable left_on : A -> K.
Variable right_on : B -> K.

(** The rows of the right frame whose key equals the key of [a]. *)
Definition matching (a : A) (right : list B) : list B :=
  filter (fun b => right_on b = left_on a) right.

(** [left.merge(right, how="inner")]: the order of the left keys is kept;
    a left row without a match is dropped. *)
Definition merge_inner (left : list A) (right : list B) : list (A * B) :=
  flat_map (fun a => map (pair a) (matching a right)) left.

(** [left.merge(right, how="left")]: a left row without a match is kept and
    every column of the right frame is missing on it ([None]). *)
Definition left_rows (a : A) (right : list B) : list (A * option B) :=
  match matching a right with
  | [] => [(a, None)]
  | bs => map (fun b => (a, Some b)) bs
  end.

Definition merge_left (left : list A) (right : list B) : list (A * option B) :=
  flat_map (fun a => left_rows a right) left.

End Merge.

(** [left.merge(right, how="cross")]: every left row with every right row,
    left rows outermost. *)
Definition merge_cross {A B : Type} (left : list A) (right : list B) : list (A * B) :=
  flat_map (fun a => map (pair a) right) left.

(** The first value present of a group ([GroupBy.first]). *)
Definition first_valid (s : list cell) : cell :=
  match dropna s with
  | [] => NaN
  | c :: _ => c
  end.

Section GroupBy.
Context {A K : Type} `{EqDecision K}.
Variable key : A -> K.
Variable key_le : K -> K -> bool.

(** The group keys of [df.groupby(key)]: each key once, in key order. *)
Definition group_keys (rows : list A) : list K :=
  merge_sort (fun a b => Is_true (key_le a b)) (remove_dups (map key rows)).

Definition group (k : K) (rows : list A) : list A :=
  filter (fun r => key r = k) rows.

(** [df.groupby(key)[col].agg(f).reset_index()]: one row per key. *)
Definition groupby_agg (col : A -> cell) (f : list cell -> cell)
    (rows : list A) : list (K * cell) :=
  map (fun k => (k, f (map col (group k rows)))) (group_keys rows).

(** [df.groupby(key)[col].shift(1)]: on every row the value of [col] on the
    preceding row of the same group, in frame order; [null] on the first row
    of a group.  [before] holds the rows already passed, nearest first. *)
Fixpoint shift1_from {V : Type} (col : A -> V) (null : V)
    (before rows : list A) : list V :=
  match rows with
  | [] => []
  | r :: rest =>
      match list_find (fun p => key p = key r) before with
      | Some (_, p) => col p
      | None => null
      end :: shift1_from col null (r :: before) rest
  end.

Definition groupby_shift1 {V : Type} (col : A -> V) (null : V)
    (rows : list A) : list V :=
  shift1_from col null [] rows.

End GroupBy.

End Frame.

(** ** code/1-share-shift-weights.py *)

Module ShiftShare.

(** A row of [ifr_long], line 85. *)
Record ifr_long_row : Type := {
  country : string;
  year : Z;
  robot_stock : cell
}.

(** A row of [weights], lines 35-42. *)
Record weight_row : Type := {
  industry_id : string;
  auto_weight : cell
}.

(** A row of [panel] after line 94. *)
Record panel_row : Type := {
  exposure_of : ifr_long_row;
  weight_of : weight_row;
  robot_exposure : cell
}.

Definition with_exposure (p : ifr_long_row * weight_row) : panel_row :=
  {| exposure_of := fst p;
     weight_of := snd p;
     robot_exposure := cell_mul (robot_stock (fst p)) (auto_weight (snd p)) |}.

(** Lines 91-94: the cross merge and the level exposure. *)
Definition panel (ifr_long : list ifr_long_row) (weights : list weight_row)
  : list panel_row :=
  map with_exposure (Frame.merge_cross ifr_long weights).

(** *** Country labels, lines 76-83; a label is the text of the first
    column with the blanks at its ends stripped (line 77) *)

(** The character [-]. *)
Definition hyphen : Ascii.ascii := Ascii.ascii_of_nat 45.

(** The class [[A-Z]] of the pattern. *)
Definition is_upper (a : Ascii.ascii) : bool :=
  (65 <=? Ascii.nat_of_ascii a)%nat && (Ascii.nat_of_ascii a <=? 90)%nat.

(** [label.str.extract(r"^([A-Z]{2})-")[0]]: the two capitals before a
    hyphen at the start of the label, missing when the label does not start
    so. *)
Definition iso2_of_label (label : string) : option string :=
  match label with
  | String a (String b (String c _)) =>
      if is_upper a && is_upper b && bool_decide (c = hyphen)
      then Some (String a (String b ""))
      else None
  | _ => None
  end.

(** Line 79: [np.where(iso2.notna(), iso2, label)]. *)
Definition country_of_label (label : string) : string :=
  from_option id label (iso2_of_label label).

(** [label.str.contains("-", regex=False)]. *)
Fixpoint contains_hyphen (label : string) : bool :=
  match label with
  | "" => false
  | String a rest => if decide (a = hyphen) then true else contains_hyphen rest
  end.

(** Line 83: the rows that are kept. *)
Definition keeps_label (label : string) : bool :=
  bool_decide (is_Some (iso2_of_label label)) || contains_hyphen label.

(** Two countries over three years, four industries. *)
Definition fixture_ifr_long : list ifr_long_row :=
  [ {| country := "DE"; year := 2004; robot_stock := Num 120 |};
    {| country := "DE"; year := 2005; robot_stock := Num 126 |};
    {| country := "DE"; year := 2006; robot_stock := Num 132 |};
    {| country := "SE"; year := 2004; robot_stock := Num 7 |};
    {| country := "SE"; year := 2005; robot_stock := Num 0 |};
    {| country := "SE"; year := 2006; robot_stock := Num 8.5 |} ].

Definition fixture_weights : list weight_row :=
  [ {| industry_id := "100"; auto_weight := Num 0.25 |};
    {| industry_id := "132"; auto_weight := Num 0.5 |};
    {| industry_id := "351"; auto_weight := Num 0.75 |};
    {| industry_id := "391"; auto_weight := Num 0 |} ].

End ShiftShare.

(** ** data/cleaned_data.csv *)

Module CleanedData.

(** A row of cleaned_data.csv, with the columns the equation scripts read. *)
Record row : Type := {
  country_code : string;
  nace_r2_code : string;
  entity : string;
  year_int : Z;
  ln_hours : lncell;
  ln_robots_lag1 : lncell;
  ln_va : lncell;
  ln_cap : lncell;
  ln_gdp : lncell;
  unemployment : cell;
  adjcov : cell;
  adjcov_centered : cell
}.

(** The frame read back from the file.  A file written by an older cleaning
    script has no [adjcov_centered] column; the field of a row is then not
    read. *)
Record frame : Type := {
  has_adjcov_centered : bool;
  rows : list row
}.

(** The panel index set by [prepare_panel]. *)
Definition index_key (r : row) : string * Z := (entity r, year_int r).

Definition set_adjcov_centered (v : cell) (r : row) : row :=
  {| country_code := country_code r; nace_r2_code := nace_r2_code r;
     entity := entity r; year_int := year_int r; ln_hours := ln_hours r;
     ln_robots_lag1 := ln_robots_lag1 r; ln_va := ln_va r;
     ln_cap := ln_cap r; ln_gdp := ln_gdp r; unemployment := unemployment r;
     adjcov := adjcov r; adjcov_centered := v |}.

End CleanedData.

(** ** code/2-cleaning-data.py *)

Module Cleaning.

Definition EU_ISO2 : gset string :=
  list_to_set
    ["AT"; "BE"; "BG"; "CY"; "CZ"; "DE"; "DK"; "EE"; "EL"; "ES"; "FI"; "FR";
     "GR"; "HR"; "HU"; "IE"; "IT"; "LT"; "LU"; "LV"; "MT"; "NL"; "PL"; "PT";
     "RO"; "SE"; "SI"; "SK"; "UK"].

(** IFR industry_code -> KLEMS nace_r2_code (manufacturing). *)
Definition IFR_TO_NACE : gmap string string :=
  list_to_map
    [("10-12", "C10-C12"); ("13-15", "C13-C15"); ("16", "C16-C18");
     ("17-18", "C16-C18"); ("19", "C19"); ("19-22", "C20-C21");
     ("20", "C20-C21"); ("20-21", "C20-C21"); ("20-23", "C20-C21");
     ("21", "C21"); ("22", "C22-C23"); ("23", "C22-C23"); ("24", "C24-C25");
     ("24-25", "C24-C25"); ("25", "C24-C25"); ("26", "C26-C27");
     ("26-27", "C26-C27"); ("27", "C26-C27"); ("28", "C28");
     ("29", "C29-C30"); ("29-30", "C29-C30"); ("30", "C29-C30"); ("D", "C");
     ("D_other", "C31-C33")].

Definition EUROSTAT_GEO_TO_ISO2 : gmap string string :=
  list_to_map
    [("Austria", "AT"); ("Belgium", "BE"); ("Bulgaria", "BG");
     ("Croatia", "HR"); ("Cyprus", "CY"); ("Czechia", "CZ");
     ("Czech Republic", "CZ"); ("Denmark", "DK"); ("Estonia", "EE");
     ("Finland", "FI"); ("France", "FR"); ("Germany", "DE"); ("Greece", "EL");
     ("Hungary", "HU"); ("Ireland", "IE"); ("Italy", "IT"); ("Latvia", "LV");
     ("Lithuania", "LT"); ("Luxembourg", "LU"); ("Malta", "MT");
     ("Netherlands", "NL"); ("Poland", "PL"); ("Portugal", "PT");
     ("Romania", "RO"); ("Slovakia", "SK"); ("Slovenia", "SI");
     ("Spain", "ES"); ("Sweden", "SE"); ("United Kingdom", "UK")].

Definition ISO3_TO_ISO2 : gmap string string :=
  list_to_map
    [("AUT", "AT"); ("BEL", "BE"); ("BGR", "BG"); ("HRV", "HR"); ("CYP", "CY");
     ("CZE", "CZ"); ("DNK", "DK"); ("EST", "EE"); ("FIN", "FI"); ("FRA", "FR");
     ("DEU", "DE"); ("GRC", "EL"); ("HUN", "HU"); ("IRL", "IE"); ("ITA", "IT");
     ("LVA", "LV"); ("LTU", "LT"); ("LUX", "LU"); ("MLT", "MT"); ("NLD", "NL");
     ("POL", "PL"); ("PRT", "PT"); ("ROU", "RO"); ("SVK", "SK"); ("SVN", "SI");
     ("ESP", "ES"); ("SWE", "SE"); ("GBR", "UK")].

(** *** Loading *)

Section Load.
Import Py.
Context {file frame : Type}.
(** [pd.read_csv] on the contents of a file. *)
Variable read_csv : file -> result frame.

(** [load_csv(path)], lines 68-71. *)
Definition load_csv (dir : data_dir file) (path : string) : result frame :=
  match dir !! path with
  | None => inl (FileNotFoundError path)
  | Some f => read_csv f
  end.

(** The raw frames of one run of [main], in the order they are loaded. *)
Record raw_frames : Type := {
  raw_ifr : frame;
  raw_klems : frame;
  raw_ictwss : frame;
  raw_gdp : frame;
  raw_une : frame
}.

(** Lines 119-121: the GDP file under either of its two names. *)
Definition gdp_path (dir : data_dir file) : string :=
  if decide (is_Some (dir !! "eurostata_gdp_nama_10_gdp.csv"))
  then "eurostata_gdp_nama_10_gdp.csv"
  else "eurostat_gdp_nama_10_gdp.csv".

(** The loads of [main] (lines 78, 87, 104, 122 and 131); nothing in [main]
    catches an exception, so the first one raised ends the run. *)
Definition main_loads (dir : data_dir file) : result raw_frames :=
  match load_csv dir "IFR_karol.csv" with
  | inl e => inl e
  | inr ifr =>
  match load_csv dir "klems_growth_accounts_basic.csv" with
  | inl e => inl e
  | inr klems =>
  match load_csv dir "ictwss_institutions.csv" with
  | inl e => inl e
  | inr ictwss =>
  match load_csv dir (gdp_path dir) with
  | inl e => inl e
  | inr gdp =>
  match load_csv dir "eurostat_employment_une_rt_a.csv" with
  | inl e => inl e
  | inr une =>
      inr {| raw_ifr := ifr; raw_klems := klems; raw_ictwss := ictwss;
             raw_gdp := gdp; raw_une := une |}
  end end end end end.

End Load.

(** A data directory with every source but the unemployment file; a file is
    held as its name and the reader accepts every file. *)
Definition dir_without_une : Py.data_dir string :=
  list_to_map
    [("IFR_karol.csv", "ifr"); ("klems_growth_accounts_basic.csv", "klems");
     ("ictwss_institutions.csv", "ictwss");
     ("eurostat_gdp_nama_10_gdp.csv", "gdp")].

Definition read_any (f : string) : Py.result string := inr f.

(** *** The country key of each source *)



(** ICTWSS, lines 105-106: [iso3] through [ISO3_TO_ISO2], then the filter. *)
Definition ictwss_country (token : string) : option string :=
  c ← ISO3_TO_ISO2 !! token;
  if decide (c ∈ EU_ISO2) then Some c else None.

(** Eurostat, lines 123-127 and 132-136: [geo] through
    [EUROSTAT_GEO_TO_ISO2], then the filter. *)
Definition eurostat_country (token : string) : option string :=
  c ← EUROSTAT_GEO_TO_ISO2 !! token;
  if decide (c ∈ EU_ISO2) then Some c else None.

(** *** 1. IFR (robots) *)

(** A row of IFR_karol.csv, as far as the script reads it. *)
Record ifr_in : Type := {
  country_code : string;
  industry_code : string;
  year : Z;
  robot_wrkr_stock_95 : cell
}.

(** A row of [ifr] after line 83. *)
Record ifr_row : Type := {
  ifr_src : ifr_in;
  ln_robots : lncell;
  ln_robots_lag1 : lncell
}.

(** Lines 79-81. *)
Definition ifr_filtered (ifr : list ifr_in) : list ifr_in :=
  filter (fun r => (1993 <= year r <= 2019)%Z)
    (filter (fun r => industry_code r ∈ dom IFR_TO_NACE)
       (filter (fun r => country_code r ∈ EU_ISO2) ifr)).

(** Line 82: [np.log(robot_wrkr_stock_95.replace(0, np.nan))]. *)
Definition ln_robots_of (r : ifr_in) : lncell :=
  np_log (replace_zero (robot_wrkr_stock_95 r)).

Definition entity_key (r : ifr_in) : string * string :=
  (country_code r, industry_code r).

(** Lines 82-83. *)
Definition with_lag (ifr : list ifr_in) : list ifr_row :=
  zip_with (fun r lag =>
              {| ifr_src := r; ln_robots := ln_robots_of r;
                 ln_robots_lag1 := lag |})
    ifr (Frame.groupby_shift1 entity_key ln_robots_of LNaN ifr).

(** Lines 79-84. *)
Definition ifr_frame (ifr : list ifr_in) : list ifr_row :=
  filter (fun r => (1995 <= year (ifr_src r))%Z) (with_lag (ifr_filtered ifr)).

(** *** 2. KLEMS *)

(** A row of [klems_wide] (line 95), the KLEMS frame pivoted on [var]. *)
Record klems_row : Type := {
  k_country_code : string;
  k_nace_r2_code : string;
  k_year : Z;
  LAB_QI : cell;
  VA_PYP : cell;
  CAP_QI : cell
}.

(** *** 3. ICTWSS *)

(** A row of ictwss_institutions.csv; the two measures are read through
    [pd.to_numeric(errors="coerce")], a token that is no number is NaN. *)
Record ictwss_row : Type := {
  iso3 : string;
  i_year : Z;
  AdjCov : cell;
  Coord : cell
}.

(** Lines 108-110. *)
Definition _safe_mean (s : list cell) : cell :=
  if existsb notna s then cell_mean (filter (fun c => notna c = true) s)
  else NaN.

(** A row of [ictwss_baseline]. *)
Record baseline_row : Type := {
  b_country_code : string;
  b_AdjCov : cell;
  b_Coord : cell
}.

(** Lines 105-107: rows of the baseline window with their country code. *)
Definition base_years (ictwss : list ictwss_row) : list (string * ictwss_row) :=
  filter (fun cr => (1990 <= i_year cr.2 <= 1995)%Z)
    (omap (fun r => c ← ictwss_country (iso3 r); Some (c, r)) ictwss).

(** Lines 112-116. *)
Definition ictwss_baseline (ictwss : list ictwss_row) : list baseline_row :=
  let rows := base_years ictwss in
  map (fun c =>
         let g := Frame.group fst c rows in
         {| b_country_code := c;
            b_AdjCov := _safe_mean (map (fun cr => AdjCov cr.2) g);
            b_Coord := _safe_mean (map (fun cr => Coord cr.2) g) |})
    (Frame.group_keys fst String.leb rows).

(** *** 4./5. Eurostat GDP and unemployment *)

(** A row of a Eurostat file; [TIME_PERIOD] and [OBS_VALUE] are read through
    [pd.to_numeric(errors="coerce")]: [None] and [NaN] for a token that is
    no number. *)
Record eurostat_row : Type := {
  geo : string;
  TIME_PERIOD : option Z;
  OBS_VALUE : cell
}.

Definition country_year_le (a b : string * Z) : bool :=
  if decide (a.1 = b.1) then (a.2 <=? b.2)%Z else String.leb a.1 b.1.

(** Lines 123-128 and 132-137: one row per (country_code, year) with the
    first value present; a row whose country is not mapped or not in
    [EU_ISO2] is dropped, and [groupby] leaves out a missing year. *)
Definition eurostat_frame (raw : list eurostat_row) : list ((string * Z) * cell) :=
  Frame.groupby_agg fst country_year_le snd Frame.first_valid
    (omap (fun r =>
             c ← eurostat_country (geo r);
             y ← TIME_PERIOD r;
             Some ((c, y), OBS_VALUE r)) raw).

(** *** The raw sources of one run *)

Record sources : Type := {
  IFR_karol : list ifr_in;
  klems_wide : list klems_row;
  ictwss_institutions : list ictwss_row;
  eurostat_gdp : list eurostat_row;
  eurostat_une : list eurostat_row
}.

(** *** Merges, lines 139-152 *)

(** Lines 140-141: the IFR row with its [nace_r2_code]. *)
Definition with_nace (ifr : list ifr_row) : list (ifr_row * string) :=
  omap (fun r => n ← IFR_TO_NACE !! industry_code (ifr_src r); Some (r, n)) ifr.

Definition ifr_key (rn : ifr_row * string) : string * string * Z :=
  (country_code (ifr_src rn.1), rn.2, year (ifr_src rn.1)).

Definition klems_key (k : klems_row) : string * string * Z :=
  (k_country_code k, k_nace_r2_code k, k_year k).

(** A row of [df] after the inner merge of line 142. *)
Abbreviation df1_row := ((ifr_row * string) * klems_row)%type.

Definition df1 (src : sources) : list df1_row :=
  Frame.merge_inner ifr_key klems_key
    (with_nace (ifr_frame (IFR_karol src))) (klems_wide src).

Definition country_of (m : df1_row) : string := country_code (ifr_src m.1.1).
Definition year_of (m : df1_row) : Z := year (ifr_src m.1.1).
Definition country_year (m : df1_row) : string * Z := (country_of m, year_of m).

(** Line 150. *)
Abbreviation df2_row := (df1_row * option ((string * Z) * cell))%type.

Definition add_gdp (gdp : list ((string * Z) * cell)) (df : list df1_row)
  : list df2_row :=
  Frame.merge_left country_year fst df gdp.

(** Line 151. *)
Abbreviation df3_row := (df2_row * option ((string * Z) * cell))%type.

Definition add_une (une : list ((string * Z) * cell)) (df : list df2_row)
  : list df3_row :=
  Frame.merge_left (fun m => country_year m.1) fst df une.

(** Line 152. *)
Abbreviation df4_row := (df3_row * option baseline_row)%type.

Definition add_ictwss (baseline : list baseline_row) (df : list df3_row)
  : list df4_row :=
  Frame.merge_left (fun m => country_of m.1.1) b_country_code df baseline.

(** The assembled frame [df] after line 152. *)
Definition assembled (src : sources) : list df4_row :=
  add_ictwss (ictwss_baseline (ictwss_institutions src))
    (add_une (eurostat_frame (eurostat_une src))
       (add_gdp (eurostat_frame (eurostat_gdp src)) (df1 src))).

(** The columns of the assembled frame. *)
Definition col_ifr (m : df4_row) : ifr_row := m.1.1.1.1.1.
Definition col_nace_r2_code (m : df4_row) : string := m.1.1.1.1.2.
Definition col_klems (m : df4_row) : klems_row := m.1.1.1.2.
Definition col_gdp (m : df4_row) : cell := from_option snd NaN m.1.1.2.
Definition col_unemployment (m : df4_row) : cell := from_option snd NaN m.1.2.
Definition col_AdjCov (m : df4_row) : cell := from_option b_AdjCov NaN m.2.
Definition col_Coord (m : df4_row) : cell := from_option b_Coord NaN m.2.

(** *** Regression variables, lines 155-169 *)

Record panel_row : Type := {
  merged : df4_row;
  ln_hours : lncell;
  ln_va : lncell;
  ln_cap : lncell;
  ln_gdp : lncell;
  adjcov : cell;
  coord : cell;
  adjcov_centered : cell;
  high_coord : cell;
  high_robot_industry : Z
}.

Definition floor : Q := 0.1.

Definition high_robot_nace : gset string :=
  list_to_set ["C26-C27"; "C28"; "C29-C30"].

(** Line 165: [np.where(coord.notna(), (coord >= 4).astype(int), np.nan)]. *)
Definition high_coord_of (c : cell) : cell :=
  match c with
  | NaN => NaN
  | Num q => if Qle_bool 4 q then Num 1 else Num 0
  | Inf false => Num 1
  | Inf true => Num 0
  end.

(** Line 163: the mean of [adjcov] over the assembled frame. *)
Definition adj_mean (df : list df4_row) : cell :=
  cell_mean (map col_AdjCov df).

Definition build_vars (df : list df4_row) : list panel_row :=
  map (fun m =>
         {| merged := m;
            ln_hours := np_log (clip_lower floor (LAB_QI (col_klems m)));
            ln_va := np_log (clip_lower floor (VA_PYP (col_klems m)));
            ln_cap := np_log (clip_lower floor (CAP_QI (col_klems m)));
            ln_gdp := np_log (clip_lower floor (col_gdp m));
            adjcov := col_AdjCov m;
            coord := col_Coord m;
            adjcov_centered := cell_sub (col_AdjCov m) (adj_mean df);
            high_coord := high_coord_of (col_Coord m);
            high_robot_industry :=
              if decide (col_nace_r2_code m ∈ high_robot_nace) then 1 else 0
         |}) df.

Definition lag_of (r : panel_row) : lncell := ln_robots_lag1 (col_ifr (merged r)).

(** Lines 172-173: [df.dropna(subset=required)]. *)
Definition required_present (r : panel_row) : bool :=
  ln_notna (ln_hours r) && ln_notna (lag_of r)
  && ln_notna (ln_va r) && ln_notna (ln_cap r).

(** The rows of the panel written to cleaned_data.csv. *)
Definition cleaned (src : sources) : list panel_row :=
  filter (fun r => required_present r = true) (build_vars (assembled src)).

(** Lines 175-188: the columns written to cleaned_data.csv. *)
Definition to_csv (r : panel_row) : CleanedData.row :=
  let i := ifr_src (col_ifr (merged r)) in
  {| CleanedData.country_code := country_code i;
     CleanedData.nace_r2_code := col_nace_r2_code (merged r);
     CleanedData.entity := country_code i +:+ "_" +:+ industry_code i;
     CleanedData.year_int := year i;
     CleanedData.ln_hours := ln_hours r;
     CleanedData.ln_robots_lag1 := lag_of r;
     CleanedData.ln_va := ln_va r;
     CleanedData.ln_cap := ln_cap r;
     CleanedData.ln_gdp := ln_gdp r;
     CleanedData.unemployment := col_unemployment (merged r);
     CleanedData.adjcov := adjcov r;
     CleanedData.adjcov_centered := adjcov_centered r |}.

Definition df_out (src : sources) : CleanedData.frame :=
  {| CleanedData.has_adjcov_centered := true;
     CleanedData.rows := map to_csv (cleaned src) |}.

(** *** Notions used to state the properties of the panel *)

(** The observation of the same entity that precedes row [i], in frame
    order: the row the lag of row [i] is read from. *)
Definition previous_observation (rows : list ifr_in) (i : nat) : option ifr_in :=
  r ← rows !! i;
  snd <$> list_find (fun p => entity_key p = entity_key r) (reverse (take i rows)).

(** The robots-per-worker value of an observation is zero or missing, or
    there is no observation. *)
Definition zero_or_missing (o : option ifr_in) : Prop :=
  match o with
  | None => True
  | Some p =>
      match robot_wrkr_stock_95 p with
      | NaN => True
      | Num q => (q == 0)%Q
      | Inf _ => False
      end
  end.

(** The rows of every entity come in ascending year order. *)
Fixpoint years_ascending (rows : list ifr_in) : bool :=
  match rows with
  | [] => true
  | r :: rest =>
      forallb (fun x => if decide (entity_key x = entity_key r)
                        then (year r <? year x)%Z else true) rest
      && years_ascending rest
  end.

(** The key of an observation of the IFR file. *)
Definition observation_key (r : ifr_in) : string * string * Z :=
  (country_code r, industry_code r, year r).

(** The IFR observation a row of the panel is built on. *)
Definition observation (r : panel_row) : ifr_in := ifr_src (col_ifr (merged r)).

(** A log column is defined wherever its raw column is present. *)
Definition log_defined (raw : cell) (ln : lncell) : Prop :=
  notna raw = true → ln_finite ln = true.

(** A log column follows its raw column above the floor: the log of the
    greater of the raw value and the floor on a number, of the floor on
    -inf; inf on inf; missing where the raw value is missing. *)
Definition log_above_floor (raw : cell) (ln : lncell) : Prop :=
  match raw with
  | NaN => ln = LNaN
  | Num q => ∃ v, ln = Ln v ∧ (floor <= v)%Q ∧ (q <= v)%Q ∧ (v == q ∨ v == floor)%Q
  | Inf true => ln = Ln floor
  | Inf false => ln = LPosInf
  end.

(** The observation of the entity of [r] in the year before that of [r]. *)
Definition previous_year (rows : list ifr_in) (r : ifr_in) : option ifr_in :=
  snd <$> list_find (fun p => entity_key p = entity_key r
                             ∧ year p = (year r - 1)%Z) rows.

(** The four log columns required of a written row are finite. *)
Definition finite_logs (r : panel_row) : Prop :=
  ln_finite (ln_hours r) = true ∧ ln_finite (lag_of r) = true
  ∧ ln_finite (ln_va r) = true ∧ ln_finite (ln_cap r) = true.

(** *** A small run: two countries, two industries, 1995-1997, and no
    institutional data for France *)

Module Fixture.

Definition countries : list string := ["DE"; "FR"].
Definition years : list Z := [1995; 1996; 1997]%Z.

Definition ifr_rows : list ifr_in :=
  c ← countries; i ← ["28"; "29"]; y ← years;
  [ {| country_code := c; industry_code := i; year := y;
       robot_wrkr_stock_95 := Num (inject_Z (y - 1990) / 4) |} ].

Definition klems_rows : list klems_row :=
  c ← countries; n ← ["C28"; "C29-C30"]; y ← years;
  [ {| k_country_code := c; k_nace_r2_code := n; k_year := y;
       LAB_QI := Num (inject_Z (y - 1900)); VA_PYP := Num 101.5;
       CAP_QI := Num 98 |} ].

Definition ictwss_rows : list ictwss_row :=
  [ {| iso3 := "DEU"; i_year := 1990; AdjCov := Num 85; Coord := Num 4 |};
    {| iso3 := "DEU"; i_year := 1993; AdjCov := NaN; Coord := Num 4 |};
    {| iso3 := "DEU"; i_year := 1995; AdjCov := Num 81; Coord := Num 5 |};
    {| iso3 := "USA"; i_year := 1995; AdjCov := Num 17; Coord := Num 1 |} ].

Definition gdp_rows : list eurostat_row :=
  [ {| geo := "Germany"; TIME_PERIOD := Some 1995%Z; OBS_VALUE := Num 1900 |};
    {| geo := "Germany"; TIME_PERIOD := Some 1996%Z; OBS_VALUE := Num 1920 |};
    {| geo := "Germany"; TIME_PERIOD := Some 1997%Z; OBS_VALUE := Num 1960 |};
    {| geo := "France"; TIME_PERIOD := Some 1996%Z; OBS_VALUE := Num 1300 |};
    {| geo := "France"; TIME_PERIOD := Some 1997%Z; OBS_VALUE := Num 1320 |} ].

Definition une_rows : list eurostat_row :=
  [ {| geo := "France"; TIME_PERIOD := Some 1995%Z; OBS_VALUE := Num 11.5 |};
    {| geo := "Germany"; TIME_PERIOD := Some 1995%Z; OBS_VALUE := Num 8.2 |};
    {| geo := "Germany"; TIME_PERIOD := None; OBS_VALUE := Num 8 |} ].

Definition src : sources :=
  {| IFR_karol := ifr_rows; klems_wide := klems_rows;
     ictwss_institutions := ictwss_rows;
     eurostat_gdp := gdp_rows; eurostat_une := une_rows |}.

(** What the institutional join leaves on a row: its key and whether the
    two institutional columns are present. *)
Definition institutional_view (m : df4_row)
  : string * string * Z * bool * bool :=
  (country_of m.1.1.1, col_nace_r2_code m, year_of m.1.1.1,
   notna (col_AdjCov m), notna (col_Coord m)).

(** An observation with a robot stock of zero. *)
Definition zero_robots : ifr_in :=
  {| country_code := "DE"; industry_code := "28"; year := 1996;
     robot_wrkr_stock_95 := Num 0 |}.

(** One entity observed in 1995 and 1997, not in 1996. *)
Definition gap_rows : list ifr_in :=
  [ {| country_code := "DE"; industry_code := "28"; year := 1995;
       robot_wrkr_stock_95 := Num 2 |};
    {| country_code := "DE"; industry_code := "28"; year := 1997;
       robot_wrkr_stock_95 := Num 3 |} ].

(** The run [src] with the IFR rows of [ifr]. *)
Definition src_with (ifr : list ifr_in) : sources :=
  {| IFR_karol := ifr; klems_wide := klems_rows;
     ictwss_institutions := ictwss_rows;
     eurostat_gdp := gdp_rows; eurostat_une := une_rows |}.

(** One entity whose file lists 1997 before 1996 and 1995, with no robots
    in 1995. *)
Definition unsorted_rows : list ifr_in :=
  [ {| country_code := "DE"; industry_code := "28"; year := 1997;
       robot_wrkr_stock_95 := Num 4 |};
    {| country_code := "DE"; industry_code := "28"; year := 1996;
       robot_wrkr_stock_95 := Num 3 |};
    {| country_code := "DE"; industry_code := "28"; year := 1995;
       robot_wrkr_stock_95 := Num 0 |} ].

(** One entity with an infinite stock in 1995. *)
Definition infinite_rows : list ifr_in :=
  [ {| country_code := "DE"; industry_code := "28"; year := 1995;
       robot_wrkr_stock_95 := Inf false |};
    {| country_code := "DE"; industry_code := "28"; year := 1996;
       robot_wrkr_stock_95 := Num 3 |} ].

(** The observation of German machinery in 1996 in [ifr_rows], with its
    columns of line 82-83 when the 1995 stock is zero. *)
Definition after_zero : ifr_row :=
  let r := {| country_code := "DE"; industry_code := "28"; year := 1996;
              robot_wrkr_stock_95 := Num (inject_Z (1996 - 1990) / 4) |} in
  {| ifr_src := r; ln_robots := ln_robots_of r; ln_robots_lag1 := LNaN |}.

(** The run [src] with no robots in German machinery in 1995. *)
Definition ifr_rows_zero : list ifr_in :=
  {| country_code := "DE"; industry_code := "28"; year := 1995;
     robot_wrkr_stock_95 := Num 0 |} :: tail ifr_rows.

Definition src_zero : sources :=
  {| IFR_karol := ifr_rows_zero; klems_wide := klems_rows;
     ictwss_institutions := ictwss_rows;
     eurostat_gdp := gdp_rows; eurostat_une := une_rows |}.

(** A run where the rows dropped for a missing lag change the mean of
    [adjcov]: machinery in Germany (1995-1997) and France (1995-1996), with
    institutional data for both. *)
Definition src_centering : sources :=
  {| IFR_karol :=
       filter (fun r => industry_code r = "28"
                        ∧ (country_code r = "DE" ∨ (year r <= 1996)%Z)) ifr_rows;
     klems_wide := klems_rows;
     ictwss_institutions :=
       ictwss_rows
       ++ [ {| iso3 := "FRA"; i_year := 1994; AdjCov := Num 95; Coord := Num 2 |} ];
     eurostat_gdp := gdp_rows; eurostat_une := une_rows |}.

End Fixture.

End Cleaning.

(** ** code/_equation_utils.py *)

Module EquationUtils.
Import CleanedData.

Inductive control : Type := c_ln_va | c_ln_cap | c_ln_gdp | c_unemployment.

Definition control_notna (c : control) (r : row) : bool :=
  match c with
  | c_ln_va => ln_notna (ln_va r)
  | c_ln_cap => ln_notna (ln_cap r)
  | c_ln_gdp => ln_notna (ln_gdp r)
  | c_unemployment => notna (unemployment r)
  end.

Definition get_controls (df : list row) : list control :=
  [c_ln_va; c_ln_cap]
  ++ (if existsb (control_notna c_ln_gdp) df then [c_ln_gdp] else [])
  ++ (if existsb (control_notna c_unemployment) df then [c_unemployment] else []).

(** [df.drop_duplicates(subset=["entity", "year_int"])]: the first row of
    every (entity, year_int) is kept. *)
Fixpoint drop_duplicates_from (seen : list (string * Z)) (df : list row) : list row :=
  match df with
  | [] => []
  | r :: rest =>
      if decide ((entity r, year_int r) ∈ seen) then drop_duplicates_from seen rest
      else r :: drop_duplicates_from ((entity r, year_int r) :: seen) rest
  end.

Definition drop_duplicates (df : list row) : list row := drop_duplicates_from [] df.

Definition index_le (a b : row) : bool :=
  if decide (entity a = entity b) then (year_int a <=? year_int b)%Z
  else String.leb (entity a) (entity b).

(** [prepare_panel(df, require)]; [require] tells whether the required
    columns are all present on a row. *)
Definition prepare_panel (df : list row) (require : row -> bool) : list row :=
  merge_sort (fun a b => Is_true (index_le a b))
    (drop_duplicates (filter (fun r => require r = true) df)).

End EquationUtils.

(** ** code/7-equation5-industry-heterogeneity-coverage.py *)

Module Equation5.
Import CleanedData EquationUtils.

Definition MIN_COUNTRIES : nat := 5.
Definition MIN_OBS : nat := 50.

(** The threshold [1e-10] of line 96. *)
Definition EPS : Q := 1 # 10000000000.

(** The square of [Series.std()] (sample variance, missing values skipped);
    [None] is the NaN pandas gives for fewer than two values and for a
    series with an infinite value (its mean is infinite or NaN). *)
Definition std_squared (s : list cell) : option Q :=
  if existsb infinite s then None
  else
    match valid s with
    | [] | [_] => None
    | v =>
        let m := (Qsum v / Qlen v)%Q in
        Some (Qsum (map (fun x => (x - m) * (x - m))%Q v) / (Qlen v - 1))%Q
    end.

(** [s.std() < eps] for a positive [eps]: the standard deviation is below
    [eps] exactly when its square is below [eps * eps]; a comparison with
    NaN is false. *)
Definition std_lt (s : list cell) (eps : Q) : bool :=
  match std_squared s with
  | Some v => if Qlt_le_dec v (eps * eps) then true else false
  | None => false
  end.

Definition req (r : row) : bool :=
  ln_notna (ln_hours r) && ln_notna (ln_robots_lag1 r)
  && ln_notna (ln_va r) && ln_notna (ln_cap r) && notna (adjcov r).

(** Lines 54-62 of [step_model]: the rows with the required columns and
    the controls present. *)
Definition coverage_sample (df_raw : frame) : list row :=
  let controls := get_controls (rows df_raw) in
  let df := prepare_panel (rows df_raw) req in
  let df := fold_left (fun d c => filter (fun r => control_notna c r = true) d)
              controls df in
  drop_duplicates df.

(** Lines 54-67 of [step_model]: the frame the industries are cut from. *)
Definition model_frame (df_raw : frame) : list row :=
  let df := coverage_sample df_raw in
  let df :=
    if has_adjcov_centered df_raw then df
    else
      let m := cell_mean (map adjcov df) in
      map (fun r => set_adjcov_centered (cell_sub (adjcov r) m) r) df in
  filter (fun r => notna (adjcov_centered r) = true) df.

(** Line 69. *)
Definition industries (df : list row) : list string :=
  merge_sort (fun a b => Is_true (String.leb a b)) (remove_dups (map nace_r2_code df)).

(** Line 80. *)
Definition subgroup (ind : string) (df : list row) : list row :=
  filter (fun r => nace_r2_code r = ind) df.

Definition n_countries (df_ind : list row) : nat :=
  length (remove_dups (map country_code df_ind)).

(** Lines 84-100: the reason a subgroup is skipped for, [None] when it goes
    on to estimation. *)
Definition gate (df_ind : list row) : option string :=
  let n_obs := length df_ind in
  if (n_countries df_ind <? MIN_COUNTRIES)%nat
  then Some ("only " +:+ pretty (n_countries df_ind) +:+ " countries")
  else if (n_obs <? MIN_OBS)%nat
  then Some ("only " +:+ pretty n_obs +:+ " obs")
  else if std_lt (map adjcov_centered df_ind) EPS
  then Some "no variation in moderator"
  else None.

Record skip_entry : Type := {
  industry : string;
  reason : string;
  n_obs : nat
}.

Section StepModel.
(** The estimator of [linearmodels], an external collaborator: it gives a
    fit or raises, the text of the exception is kept. *)
Variable fit : Type.
Variable run_panelols : list row -> string + fit.

Record outcome : Type := {
  results : list (string * nat * fit);
  skipped : list skip_entry;
  failed : list skip_entry
}.

(** One turn of the loop of lines 79-153. *)
Definition step (df : list row) (acc : outcome) (ind : string) : outcome :=
  let df_ind := subgroup ind df in
  match gate df_ind with
  | Some why =>
      {| results := results acc;
         skipped := skipped acc
                    ++ [{| industry := ind; reason := why; n_obs := length df_ind |}];
         failed := failed acc |}
  | None =>
      match run_panelols df_ind with
      | inl e =>
          {| results := results acc;
             skipped := skipped acc;
             failed := failed acc
                       ++ [{| industry := ind; reason := e; n_obs := length df_ind |}] |}
      | inr res =>
          {| results := results acc ++ [(ind, n_countries df_ind, res)];
             skipped := skipped acc;
             failed := failed acc |}
      end
  end.

Definition step_model (df_raw : frame) : outcome :=
  let df := model_frame df_raw in
  fold_left (step df) (industries df)
    {| results := []; skipped := []; failed := [] |}.

(** An entry of [results] comes from an industry that passed the checks of
    lines 84-100 and whose estimation returned. *)
Definition estimated_on (df : list row) (e : string * nat * fit) : Prop :=
  gate (subgroup e.1.1 df) = None
  ∧ e.1.2 = n_countries (subgroup e.1.1 df)
  ∧ run_panelols (subgroup e.1.1 df) = inr e.2.

(** An entry of [failed] comes from an industry that passed the checks and
    whose estimation raised; the text of the exception is its reason. *)
Definition failed_on (df : list row) (e : skip_entry) : Prop :=
  gate (subgroup (industry e) df) = None
  ∧ run_panelols (subgroup (industry e) df) = inl (reason e).

End StepModel.

(** *** The reported interaction, lines 117-134 *)

(** What is read from a fit: [res.params.get(..., np.nan)] and the like. *)
Record estimate : Type := {
  beta_robot : cell;
  beta_interaction : cell;
  se_interaction : cell;
  pval_interaction : cell
}.

Definition ci_lower (e : estimate) : cell :=
  cell_sub (beta_interaction e) (cell_mul (Num 1.96) (se_interaction e)).

Definition ci_upper (e : estimate) : cell :=
  cell_add (beta_interaction e) (cell_mul (Num 1.96) (se_interaction e)).

(** [pval < 0.10 if not np.isnan(pval) else False]. *)
Definition significant (e : estimate) : bool :=
  match pval_interaction e with
  | NaN => false
  | Num p => if Qlt_le_dec p 0.10 then true else false
  | Inf below => below
  end.

Definition stars (e : estimate) : string :=
  match pval_interaction e with
  | NaN => ""
  | Num p =>
      if Qlt_le_dec p 0.01 then "***"
      else if Qlt_le_dec p 0.05 then "**"
      else if Qlt_le_dec p 0.10 then "*"
      else ""
  | Inf below => if below then "***" else ""
  end.

(** *** Notions used to state the properties of the gate *)

(** The standard deviation exceeds [eps]. *)
Definition std_exceeds (s : list cell) (eps : Q) : Prop :=
  match std_squared s with
  | Some v => (eps * eps < v)%Q
  | None => False
  end.

(** The standard deviation is not below [eps]: it is at least [eps], or it
    is the NaN of a series with fewer than two values. *)
Definition std_not_below (s : list cell) (eps : Q) : Prop :=
  match std_squared s with
  | Some v => (eps * eps <= v)%Q
  | None => True
  end.

(** The entry of the skipped list for an industry the gate refuses. *)
Definition skip_of (df : list row) (ind : string) : option skip_entry :=
  why ← gate (subgroup ind df);
  Some {| industry := ind; reason := why; n_obs := length (subgroup ind df) |}.

(** The industry passes the gate and is handed to the estimator. *)
Definition tried (df : list row) (ind : string) : bool :=
  match gate (subgroup ind df) with None => true | Some _ => false end.

(** *** Synthetic subgroups at the thresholds *)

Definition synthetic_row (countries : list string) (moderator : nat -> cell)
    (i : nat) : row :=
  {| country_code := nth (i mod length countries) countries "";
     nace_r2_code := "C28";
     entity := nth (i mod length countries) countries "" +:+ "_28";
     year_int := 1995 + Z.of_nat (i / length countries);
     ln_hours := Ln 100; ln_robots_lag1 := Ln 2; ln_va := Ln 100;
     ln_cap := Ln 100; ln_gdp := LNaN; unemployment := NaN;
     adjcov := moderator i; adjcov_centered := moderator i |}.

Definition synthetic (countries : list string) (moderator : nat -> cell)
    (n : nat) : list row :=
  map (synthetic_row countries moderator) (seq 0 n).

Definition four_countries : list row :=
  synthetic ["AT"; "BE"; "DE"; "FR"] (fun i => Num (inject_Z (Z.of_nat i))) 60.

Definition five_countries : list row :=
  synthetic ["AT"; "BE"; "DE"; "FR"; "IT"] (fun i => Num (inject_Z (Z.of_nat i))) 60.

Definition forty_nine_rows : list row :=
  synthetic ["AT"; "BE"; "DE"; "FR"; "IT"] (fun i => Num (inject_Z (Z.of_nat i))) 49.

(** Fifty rows whose moderator has a standard deviation of exactly 1e-10:
    mean 0 and squared deviations summing to 49e-20. *)
Definition at_epsilon : list row :=
  synthetic ["AT"; "BE"; "DE"; "FR"; "IT"]
    (fun i => match i with
              | 0 | 2 => Num (35 # 100000000000)
              | 1 | 3 => Num (-35 # 100000000000)
              | _ => Num 0
              end) 50.

End Equation5.

(** ** code/1-datacheck.py, section 6: usability of the industries *)

Module DataCheckUsability.
Import CleanedData Equation5.

(** [sub_cov], line 288: the rows of one industry with the columns of
    [req_cov] present. *)
Definition sub_cov (cleaned : list row) (nace : string) : list row :=
  filter (fun r => req r = true) (filter (fun r => nace_r2_code r = nace) cleaned).

(** Line 289: [sub_cov["adjcov"].std() >= 1e-10]; a comparison with NaN is
    false. *)
Definition var_cov (sub : list row) : bool :=
  match std_squared (map adjcov sub) with
  | Some v => Qle_bool (EPS * EPS) v
  | None => false
  end.

(** Lines 290-291: the test for [usable_eq5]. *)
Definition usable_eq5_test (sub : list row) : bool :=
  (MIN_COUNTRIES <=? n_countries sub)%nat && (MIN_OBS <=? length sub)%nat
  && var_cov sub.

(** Lines 263, 276 and 288-292. *)
Definition usable_eq5 (cleaned : list row) : list string :=
  filter (fun nace => usable_eq5_test (sub_cov cleaned nace) = true)
    (industries cleaned).

End DataCheckUsability.

(** * Properties *)

Section FrameFacts.
Import Frame.

Lemma length_merge_cross {A B} (l : list A) (r : list B) :
  length (merge_cross l r) = length l * length r.
Proof.
  unfold merge_cross. induction l as [|a l IH]; simpl; [done|].
  rewrite length_app, length_map, IH. done.
Qed.

Lemma elem_of_merge_cross {A B} (l : list A) (r : list B) (p : A * B) :
  p ∈ merge_cross l r ↔ p.1 ∈ l ∧ p.2 ∈ r.
Proof.
  unfold merge_cross. rewrite list_elem_of_In, in_flat_map. split.
  - intros (a & Ha & Hp). apply in_map_iff in Hp as (b & <- & Hb).
    simpl. by rewrite !list_elem_of_In.
  - intros [Ha Hb]. exists p.1. rewrite <- !list_elem_of_In.
    split; [done|]. destruct p as [a b]. simpl in *.
    rewrite list_elem_of_In. apply in_map. by rewrite <- list_elem_of_In.
Qed.

Section MergeFacts.
Context {A B K : Type} `{EqDecision K}.
Variable left_on : A -> K.
Variable right_on : B -> K.

Lemma matching_nil_iff (a : A) (right : list B) :
  matching left_on right_on a right = [] ↔ left_on a ∉ map right_on right.
Proof.
  unfold matching. induction right as [|b right IH]; simpl.
  - split; [intros _; apply not_elem_of_nil | done].
  - rewrite filter_cons, not_elem_of_cons. case_decide as Hk.
    + split; [done | intros [Hne _]; congruence].
    + rewrite IH. split; [intros ?; split; [congruence | done] | tauto].
Qed.

Lemma matching_unique (a : A) (right : list B) :
  NoDup (map right_on right) →
  (length (matching left_on right_on a right) ≤ 1)%nat.
Proof.
  unfold matching. induction right as [|b right IH]; simpl; [lia|].
  rewrite NoDup_cons. intros [Hnotin Hnd]. rewrite filter_cons.
  case_decide as Hk; [|by apply IH].
  rewrite Hk in Hnotin. apply matching_nil_iff in Hnotin.
  unfold matching in Hnotin. rewrite Hnotin. simpl. lia.
Qed.

Lemma left_rows_unique (a : A) (right : list B) :
  NoDup (map right_on right) →
  left_rows left_on right_on a right
  = [(a, head (matching left_on right_on a right))].
Proof.
  intros Hnd. pose proof (matching_unique a right Hnd) as Hlen.
  unfold left_rows.
  destruct (matching left_on right_on a right) as [|b [|b' bs]];
    simpl in *; [done | done | lia].
Qed.

(** With at most one right row per key, a left merge is a lookup. *)
Lemma merge_left_unique (left : list A) (right : list B) :
  NoDup (map right_on right) →
  merge_left left_on right_on left right
  = map (fun a => (a, head (matching left_on right_on a right))) left.
Proof.
  intros Hnd. unfold merge_left.
  induction left as [|a left IH]; simpl; [done|].
  by rewrite left_rows_unique, IH.
Qed.

Lemma merge_left_unique_fst (left : list A) (right : list B) :
  NoDup (map right_on right) →
  map fst (merge_left left_on right_on left right) = left.
Proof.
  intros Hnd. rewrite merge_left_unique by done.
  rewrite map_map. simpl. apply map_id.
Qed.

Lemma merge_left_unique_None (left : list A) (right : list B) :
  NoDup (map right_on right) →
  Forall (fun p => p.2 = None ↔ left_on p.1 ∉ map right_on right)
    (merge_left left_on right_on left right).
Proof.
  intros Hnd. rewrite merge_left_unique by done.
  apply Forall_forall. intros p Hp.
  apply list_elem_of_fmap in Hp as (a & -> & _). simpl.
  rewrite <- matching_nil_iff.
  destruct (matching left_on right_on a right); simpl; split; congruence.
Qed.

Lemma elem_of_merge_inner_fst (left : list A) (right : list B) p :
  p ∈ merge_inner left_on right_on left right → p.1 ∈ left.
Proof.
  unfold merge_inner. rewrite !list_elem_of_In, in_flat_map.
  intros (a & Ha & Hp). by apply in_map_iff in Hp as (b & <- & _).
Qed.

Lemma elem_of_merge_left_fst (left : list A) (right : list B) p :
  p ∈ merge_left left_on right_on left right → p.1 ∈ left.
Proof.
  unfold merge_left. rewrite !list_elem_of_In, in_flat_map.
  intros (a & Ha & Hp). unfold left_rows in Hp.
  destruct (matching left_on right_on a right).
  - by destruct Hp as [<-|[]].
  - by apply in_map_iff in Hp as (b' & <- & _).
Qed.

End MergeFacts.

Section GroupByFacts.
Context {A K : Type} `{EqDecision K}.
Variable key : A -> K.
Variable key_le : K -> K -> bool.

Lemma group_keys_perm (rows : list A) :
  group_keys key key_le rows ≡ₚ remove_dups (map key rows).
Proof. unfold group_keys. apply merge_sort_Permutation. Qed.

Lemma NoDup_group_keys (rows : list A) : NoDup (group_keys key key_le rows).
Proof. rewrite group_keys_perm. apply NoDup_remove_dups. Qed.

Lemma elem_of_group_keys (k : K) (rows : list A) :
  k ∈ group_keys key key_le rows ↔ k ∈ map key rows.
Proof. rewrite group_keys_perm. apply elem_of_remove_dups. Qed.

Lemma groupby_agg_keys (col : A -> cell) (f : list cell -> cell) rows :
  map fst (groupby_agg key key_le col f rows) = group_keys key key_le rows.
Proof. unfold groupby_agg. rewrite map_map. simpl. apply map_id. Qed.

Lemma shift1_from_elem {V} (col : A -> V) null before rows v :
  v ∈ shift1_from key col null before rows → v = null ∨ ∃ p, v = col p.
Proof.
  revert before. induction rows as [|r rows IH]; intros before; simpl.
  - by intros ?%elem_of_nil.
  - rewrite elem_of_cons. intros [->|Hv]; [|by eapply IH].
    destruct (list_find _ before) as [[? p]|]; eauto.
Qed.

Lemma shift1_from_lookup {V} (col : A -> V) null before rows i :
  shift1_from key col null before rows !! i
  = (fun r =>
       match list_find (fun p => key p = key r)
               (reverse (take i rows) ++ before) with
       | Some (_, p) => col p
       | None => null
       end) <$> rows !! i.
Proof.
  revert before i. induction rows as [|r rows IH]; intros before i.
  - by destruct i.
  - destruct i as [|i]; [done|].
    cbn [shift1_from lookup list_lookup take]. rewrite IH.
    by rewrite reverse_cons, <- app_assoc.
Qed.

End GroupByFacts.

End FrameFacts.

Section ShiftShareFacts.
Import ShiftShare.

(** C9. Shift-share construction: the panel has one row for every pair of a
    (country, year) exposure row and an industry weight row, so its length is
    the product of the two lengths (24 for 2 countries x 3 years and 4
    industries); every row carries exactly one exposure row and one weight
    row, and its exposure is robot_stock times auto_weight: the product of
    the two numbers, missing when one of them is missing, 30, 60, 90 and 0
    for the German stock of 120 in 2004 under the weights 0.25, 0.5, 0.75
    and 0. *)
Theorem panel_cartesian_product :
  (forall ifr_long weights,
      length (panel ifr_long weights) = length ifr_long * length weights
      /\ (forall a b,
             with_exposure (a, b) ∈ panel ifr_long weights
             ↔ a ∈ ifr_long ∧ b ∈ weights)
      /\ Forall (fun r =>
                   exposure_of r ∈ ifr_long ∧ weight_of r ∈ weights
                   ∧ robot_exposure r
                     = cell_mul (robot_stock (exposure_of r))
                                (auto_weight (weight_of r)))
                (panel ifr_long weights))
  /\ (forall c y i (x w : Q),
         robot_exposure
           (with_exposure ({| country := c; year := y; robot_stock := Num x |},
                           {| industry_id := i; auto_weight := Num w |}))
         = Num (x * w)
         /\ robot_exposure
              (with_exposure ({| country := c; year := y; robot_stock := NaN |},
                              {| industry_id := i; auto_weight := Num w |}))
            = NaN
         /\ robot_exposure
              (with_exposure ({| country := c; year := y; robot_stock := Num x |},
                              {| industry_id := i; auto_weight := NaN |}))
            = NaN)
  /\ length fixture_ifr_long = 6
  /\ length fixture_weights = 4
  /\ length (panel fixture_ifr_long fixture_weights) = 24
  /\ map (fun r => (country (exposure_of r), year (exposure_of r),
                    industry_id (weight_of r), cell_red (robot_exposure r)))
       (panel fixture_ifr_long fixture_weights)
     = [ ("DE", 2004%Z, "100", Num 30); ("DE", 2004%Z, "132", Num 60);
         ("DE", 2004%Z, "351", Num 90); ("DE", 2004%Z, "391", Num 0);
         ("DE", 2005%Z, "100", Num (63 # 2)); ("DE", 2005%Z, "132", Num 63);
         ("DE", 2005%Z, "351", Num (189 # 2)); ("DE", 2005%Z, "391", Num 0);
         ("DE", 2006%Z, "100", Num 33); ("DE", 2006%Z, "132", Num 66);
         ("DE", 2006%Z, "351", Num 99); ("DE", 2006%Z, "391", Num 0);
         ("SE", 2004%Z, "100", Num (7 # 4)); ("SE", 2004%Z, "132", Num (7 # 2));
         ("SE", 2004%Z, "351", Num (21 # 4)); ("SE", 2004%Z, "391", Num 0);
         ("SE", 2005%Z, "100", Num 0); ("SE", 2005%Z, "132", Num 0);
         ("SE", 2005%Z, "351", Num 0); ("SE", 2005%Z, "391", Num 0);
         ("SE", 2006%Z, "100", Num (17 # 8)); ("SE", 2006%Z, "132", Num (17 # 4));
         ("SE", 2006%Z, "351", Num (51 # 8)); ("SE", 2006%Z, "391", Num 0) ].
Proof.
  split; [|split; [done | by vm_compute]].
  intros ifr_long weights. unfold panel. split; [|split].
  - by rewrite length_map, length_merge_cross.
  - intros a b. rewrite list_elem_of_fmap. split.
    + intros ([a' b'] & Heq & Hin). apply elem_of_merge_cross in Hin.
      unfold with_exposure in Heq. simpl in *. by inversion Heq; subst.
    + intros [Ha Hb]. exists (a, b). split; [done|].
      by apply elem_of_merge_cross.
  - apply Forall_forall. intros r Hr.
    apply list_elem_of_fmap in Hr as ([a b] & -> & Hin).
    apply elem_of_merge_cross in Hin. simpl in *. tauto.
Qed.

End ShiftShareFacts.

Section CrosswalkFacts.
Import Crosswalk.

Lemma valid_Num (l : list Q) : valid (map Num l) = l.
Proof. induction l as [|q l IH]; simpl; [done | by rewrite IH]. Qed.

Lemma infinite_Num (l : list Q) : existsb infinite (map Num l) = false.
Proof. by induction l. Qed.

Lemma dropna_Num (l : list Q) : dropna (map Num l) = map Num l.
Proof.
  unfold dropna. induction l as [|q l IH]; [done|].
  cbn [map]. rewrite filter_cons. simpl. by rewrite IH.
Qed.

Lemma cell_sum_Num (l : list Q) : cell_sum (map Num l) = Num (Qsum l).
Proof.
  unfold cell_sum. rewrite dropna_Num.
  induction l as [|q l IH]; simpl; [done | by rewrite IH].
Qed.

Lemma cell_mean_Num (l : list Q) :
  cell_mean (map Num l)
  = match l with [] => NaN | _ => Num (Qsum l / Qlen l) end.
Proof.
  unfold cell_mean. rewrite dropna_Num.
  destruct l as [|q l]; [done|].
  change (map Num (q :: l)) with (Num q :: map Num l).
  cbv beta iota.
  change (Num q :: map Num l) with (map Num (q :: l)).
  rewrite cell_sum_Num. unfold Qlen. by rewrite length_map.
Qed.

Lemma entries_values g :
  map replaceability_ind (entries g) = map Num (map fst g).
Proof. unfold entries. rewrite !map_map. done. Qed.

Lemma entries_weights g : map w_ind (entries g) = map Num (map snd g).
Proof. unfold entries. rewrite !map_map. done. Qed.

Lemma entries_products g :
  zip_with cell_mul (map Num (map fst g)) (map Num (map snd g))
  = map Num (map (fun vw => fst vw * snd vw)%Q g).
Proof. induction g as [|[v w] g IH]; simpl; [done | by rewrite IH]. Qed.

(** C5. Crosswalk aggregation: over the entries of a canonical bucket,
    [wavg] is the weighted average sum(w*v)/sum(w), and it is the unweighted
    mean exactly when the weights sum to zero; (10,1),(20,3) aggregate to
    17.5 and (10,0),(20,0) to 15. *)
Theorem wavg_weighted_average :
  (forall g : list (Q * Q),
      wavg (entries g) =
      if Qeq_bool (weight_total g) 0 then unweighted_mean g
      else Num (weighted_total g / weight_total g))
  /\ cell_equiv (wavg (entries [(10, 1); (20, 3)]%Q)) (Num 17.5)
  /\ cell_equiv (wavg (entries [(10, 0); (20, 0)]%Q)) (Num 15).
Proof.
  split; [|split; vm_compute; done].
  intros g. unfold wavg, weight_total, weighted_total, unweighted_mean.
  rewrite entries_values, entries_weights, entries_products.
  rewrite !cell_sum_Num, cell_mean_Num. simpl.
  destruct (Qeq_bool (Qsum (map snd g)) 0); [|done].
  destruct g; done.
Qed.

End CrosswalkFacts.

Section CleaningFacts.
Import Cleaning.

Lemma ictwss_baseline_keys ictwss :
  map b_country_code (ictwss_baseline ictwss)
  = Frame.group_keys fst String.leb (base_years ictwss).
Proof. unfold ictwss_baseline. rewrite map_map. simpl. apply map_id. Qed.

Lemma NoDup_ictwss_baseline ictwss :
  NoDup (map b_country_code (ictwss_baseline ictwss)).
Proof. rewrite ictwss_baseline_keys. apply NoDup_group_keys. Qed.

Lemma NoDup_eurostat_frame raw : NoDup (map fst (eurostat_frame raw)).
Proof. unfold eurostat_frame. rewrite groupby_agg_keys. apply NoDup_group_keys. Qed.

(** C3. The three country-level left joins (GDP, unemployment, institutional
    baselines) keep every row of the industry-level frame, once and with its
    columns unchanged; the institutional columns are missing on a row exactly
    when its country has no ICTWSS row in the baseline window.  On the run
    with two countries, two industries and three years where France has no
    institutional data, the 12 rows all survive and the institutional columns
    are missing exactly on the six rows of France. *)
Theorem country_level_joins_keep_rows :
  (forall src : sources,
      let gdp := eurostat_frame (eurostat_gdp src) in
      let une := eurostat_frame (eurostat_une src) in
      let baseline := ictwss_baseline (ictwss_institutions src) in
      map fst (add_gdp gdp (df1 src)) = df1 src
      /\ map fst (add_une une (add_gdp gdp (df1 src))) = add_gdp gdp (df1 src)
      /\ map fst (assembled src) = add_une une (add_gdp gdp (df1 src))
      /\ length (assembled src) = length (df1 src)
      /\ Forall (fun m =>
                   m.2 = None
                   ↔ country_of m.1.1.1
                     ∉ map fst (base_years (ictwss_institutions src)))
           (assembled src))
  /\ length (df1 Fixture.src) = 12
  /\ map Fixture.institutional_view (assembled Fixture.src)
     = [ ("DE", "C28", 1995%Z, true, true); ("DE", "C28", 1996%Z, true, true);
         ("DE", "C28", 1997%Z, true, true);
         ("DE", "C29-C30", 1995%Z, true, true);
         ("DE", "C29-C30", 1996%Z, true, true);
         ("DE", "C29-C30", 1997%Z, true, true);
         ("FR", "C28", 1995%Z, false, false);
         ("FR", "C28", 1996%Z, false, false);
         ("FR", "C28", 1997%Z, false, false);
         ("FR", "C29-C30", 1995%Z, false, false);
         ("FR", "C29-C30", 1996%Z, false, false);
         ("FR", "C29-C30", 1997%Z, false, false) ].
Proof.
  split; [|split; by vm_compute].
  intros src gdp une baseline.
  assert (Hgdp : map fst (add_gdp gdp (df1 src)) = df1 src).
  { apply merge_left_unique_fst, NoDup_eurostat_frame. }
  assert (Hune : map fst (add_une une (add_gdp gdp (df1 src)))
                 = add_gdp gdp (df1 src)).
  { apply merge_left_unique_fst, NoDup_eurostat_frame. }
  assert (Hict : map fst (assembled src) = add_une une (add_gdp gdp (df1 src))).
  { apply merge_left_unique_fst, NoDup_ictwss_baseline. }
  do 3 (split; [done|]). split.
  - rewrite <- (length_map fst (assembled src)), Hict.
    rewrite <- (length_map fst (add_une _ _)), Hune.
    by rewrite <- (length_map fst (add_gdp _ _)), Hgdp.
  - unfold assembled, add_ictwss.
    eapply Forall_impl;
      [apply merge_left_unique_None, NoDup_ictwss_baseline|].
    intros m Hm. simpl in Hm. rewrite Hm, ictwss_baseline_keys.
    by rewrite elem_of_group_keys.
Qed.

(** *** Logarithms *)

Lemma floor_positive q : Qle_bool floor q = true → (0 < q)%Q.
Proof.
  intros H%Qle_bool_iff. unfold floor in H.
  apply Qlt_le_trans with (y := (1 # 10)%Q); [reflexivity | done].
Qed.

Lemma np_log_clip c : log_above_floor c (np_log (clip_lower floor c)).
Proof.
  destruct c as [|q|[|]]; simpl; [done| |done|done].
  destruct (Qle_bool floor q) eqn:Hle; simpl.
  - destruct (Qlt_le_dec 0 q) as [|Hq].
    + exists q. split; [done|]. split; [by apply Qle_bool_iff|].
      split; [apply Qle_refl | by left].
    + apply floor_positive in Hle. by apply Qlt_not_le in Hle.
  - exists floor. split; [done|]. split; [apply Qle_refl|].
    split; [|by right].
    destruct (Qlt_le_dec q floor) as [Hlt|Hge]; [by apply Qlt_le_weak|].
    apply Qle_bool_iff in Hge. congruence.
Qed.

Lemma np_log_clip_not_neginf c : np_log (clip_lower floor c) ≠ LNegInf.
Proof.
  pose proof (np_log_clip c) as H.
  destruct c as [|q|[|]]; [done| |done|done].
  destruct H as (v & -> & _). done.
Qed.

(** The clipped log of a value that is present is finite, but for inf. *)
Lemma np_log_clip_finite c :
  ln_notna (np_log (clip_lower floor c)) = true →
  c ≠ NaN
  ∧ (ln_finite (np_log (clip_lower floor c)) = true ↔ c ≠ Inf false).
Proof.
  pose proof (np_log_clip c) as H.
  destruct c as [|q|[|]]; [done| |done|done].
  destruct H as (v & -> & _). done.
Qed.

Lemma ln_robots_of_cases r :
  ln_robots_of r = LNaN
  ∧ ¬ (∃ q, robot_wrkr_stock_95 r = Num q ∧ (0 < q)%Q)
  ∧ robot_wrkr_stock_95 r ≠ Inf false
  ∨ (∃ q, robot_wrkr_stock_95 r = Num q ∧ (0 < q)%Q ∧ ln_robots_of r = Ln q)
  ∨ robot_wrkr_stock_95 r = Inf false ∧ ln_robots_of r = LPosInf.
Proof.
  unfold ln_robots_of. destruct (robot_wrkr_stock_95 r) as [|q|[|]]; simpl.
  - left. split; [done|]. split; [by intros (q & ? & _) | done].
  - destruct (Qeq_bool q 0) eqn:Hz; simpl.
    + left. split; [done|]. split; [|done]. intros (q' & [= <-] & Hq).
      apply Qeq_bool_iff in Hz. rewrite Hz in Hq. by apply Qlt_irrefl in Hq.
    + destruct (Qlt_le_dec 0 q) as [Hq|Hq]; [right; left; eauto|].
      rewrite Hz. left. split; [done|]. split; [|done].
      intros (q' & [= <-] & Hq'). by apply Qlt_not_le in Hq'.
  - left. split; [done|]. split; [by intros (q & ? & _) | done].
  - right. right. done.
Qed.

Lemma ln_robots_of_zero_or_missing o :
  zero_or_missing o → from_option ln_robots_of LNaN o = LNaN.
Proof.
  destruct o as [p|]; [|done]. simpl. unfold ln_robots_of.
  destruct (robot_wrkr_stock_95 p) as [|q|]; [done| |done]. simpl.
  intros Hq%Qeq_bool_iff. by rewrite Hq.
Qed.

(** *** The lag *)

Lemma elem_of_with_lag rows r :
  r ∈ with_lag rows →
  ifr_src r ∈ rows ∧ ln_robots r = ln_robots_of (ifr_src r)
  ∧ (ln_robots_lag1 r = LNaN ∨ ∃ p, ln_robots_lag1 r = ln_robots_of p).
Proof.
  unfold with_lag. intros (x & lag & -> & Hx & Hlag)%elem_of_zip_with. simpl.
  split; [done|]. split; [done|]. by eapply shift1_from_elem.
Qed.

(** The lag of row [i] is the log of the preceding observation of its
    entity, and missing when there is none. *)
Lemma with_lag_lookup rows i r :
  with_lag rows !! i = Some r →
  rows !! i = Some (ifr_src r)
  ∧ ln_robots_lag1 r
    = from_option ln_robots_of LNaN (previous_observation rows i).
Proof.
  unfold with_lag, Frame.groupby_shift1, previous_observation.
  rewrite lookup_zip_with, shift1_from_lookup, app_nil_r.
  destruct (rows !! i) as [x|]; [|done]. simpl. intros [= <-]. simpl.
  split; [done|]. by destruct (list_find _ _) as [[? p]|].
Qed.

Lemma years_ascending_lookup rows a b x y :
  years_ascending rows = true →
  rows !! a = Some x → rows !! b = Some y → (a < b)%nat →
  entity_key x = entity_key y → (year x < year y)%Z.
Proof.
  revert a b. induction rows as [|r rows IH]; intros a b Hasc Ha Hb Hab Hkey.
  { by rewrite lookup_nil in Ha. }
  simpl in Hasc. apply andb_prop in Hasc as [Hr Hrest].
  destruct b as [|b]; [lia|]. simpl in Hb. destruct a as [|a].
  - simpl in Ha. injection Ha as ->.
    rewrite forallb_forall in Hr. specialize (Hr y).
    rewrite decide_True in Hr by done. apply Z.ltb_lt, Hr.
    apply list_elem_of_In, list_elem_of_lookup. eauto.
  - simpl in Ha. eapply (IH a b); eauto with lia.
Qed.

Lemma previous_observation_Some rows i p :
  previous_observation rows i = Some p →
  ∃ x, rows !! i = Some x ∧ p ∈ rows ∧ entity_key p = entity_key x.
Proof.
  unfold previous_observation. destruct (rows !! i) as [x|]; [|done]. simpl.
  destruct (list_find _ _) as [[m p']|] eqn:Hfind; [|done].
  intros [= <-]. exists x. split; [done|].
  apply list_find_Some in Hfind as (Hm & Hkey & _). split; [|done].
  assert (p' ∈ reverse (take i rows)) as Hin
    by (apply list_elem_of_lookup; eauto).
  rewrite elem_of_reverse in Hin.
  apply elem_of_take in Hin as (k & Hk & _).
  apply list_elem_of_lookup. eauto.
Qed.

(** In a frame in year order, the preceding observation of an entity-year
    is the observation of the year before, when the entity has one. *)
Lemma previous_observation_previous_year rows i j x p :
  years_ascending rows = true →
  rows !! i = Some x → rows !! j = Some p →
  entity_key p = entity_key x → year p = (year x - 1)%Z →
  previous_observation rows i = Some p.
Proof.
  intros Hasc Hi Hj Hkey Hyear.
  assert (j < i)%nat as Hji.
  { destruct (Nat.lt_trichotomy j i) as [?|[->|Hij]]; [done|..].
    - rewrite Hi in Hj. injection Hj as ->. lia.
    - pose proof (years_ascending_lookup _ _ _ _ _ Hasc Hi Hj Hij) as Hlt.
      rewrite Hkey in Hlt. specialize (Hlt eq_refl). lia. }
  pose proof (lookup_lt_Some _ _ _ Hi) as Hlen.
  unfold previous_observation. rewrite Hi. simpl.
  assert (Hfind : list_find (fun q => entity_key q = entity_key x)
                    (reverse (take i rows)) = Some ((i - S j)%nat, p)).
  { apply list_find_Some. split; [|split; [done|]].
    - rewrite reverse_lookup by (rewrite length_take_le by lia; lia).
      rewrite length_take_le by lia. rewrite lookup_take_lt by lia.
      by replace (i - S (i - S j))%nat with j by lia.
    - intros m y Hm Hmj Hy.
      apply reverse_lookup_Some in Hm as [Hm Hmlen].
      rewrite length_take_le in Hm, Hmlen by lia.
      rewrite lookup_take_lt in Hm by lia.
      assert (j < i - S m)%nat as Hjm by lia.
      assert (i - S m < i)%nat as Hmi by lia.
      pose proof (years_ascending_lookup _ _ _ _ _ Hasc Hj Hm Hjm) as H1.
      pose proof (years_ascending_lookup _ _ _ _ _ Hasc Hm Hi Hmi Hy) as H2.
      rewrite Hkey, Hy in H1. specialize (H1 eq_refl). lia. }
  by rewrite Hfind.
Qed.

(** In a frame in year order the lag at year y+1 is the robot log of year y
    when the entity is observed in both years. *)
Lemma lag1_of_previous_year rows i j r p :
  years_ascending rows = true →
  with_lag rows !! i = Some r → rows !! j = Some p →
  entity_key p = entity_key (ifr_src r) →
  year p = (year (ifr_src r) - 1)%Z →
  ln_robots_lag1 r = ln_robots_of p.
Proof.
  intros Hasc [Hi ->]%with_lag_lookup Hj Hkey Hyear.
  by rewrite (previous_observation_previous_year _ _ _ _ _ Hasc Hi Hj Hkey Hyear).
Qed.

(** The lag is missing on the first observation of an entity. *)
Lemma lag1_of_first_observation rows i r :
  with_lag rows !! i = Some r →
  Forall (fun p => entity_key p ≠ entity_key (ifr_src r)) (take i rows) →
  ln_robots_lag1 r = LNaN.
Proof.
  intros [Hi ->]%with_lag_lookup Hfirst. unfold previous_observation.
  rewrite Hi. simpl.
  assert (Hnone : list_find (fun p => entity_key p = entity_key (ifr_src r))
                    (reverse (take i rows)) = None).
  { apply list_find_None. apply Forall_forall.
    intros p Hp. rewrite elem_of_reverse in Hp.
    rewrite Forall_forall in Hfirst. eauto. }
  by rewrite Hnone.
Qed.

(** *** From the output back to the IFR frame *)

Lemma elem_of_build_vars df r :
  r ∈ build_vars df →
  merged r ∈ df
  ∧ ln_hours r = np_log (clip_lower floor (LAB_QI (col_klems (merged r))))
  ∧ ln_va r = np_log (clip_lower floor (VA_PYP (col_klems (merged r))))
  ∧ ln_cap r = np_log (clip_lower floor (CAP_QI (col_klems (merged r))))
  ∧ ln_gdp r = np_log (clip_lower floor (col_gdp (merged r)))
  ∧ adjcov r = col_AdjCov (merged r)
  ∧ adjcov_centered r = cell_sub (col_AdjCov (merged r)) (adj_mean df).
Proof.
  unfold build_vars. intros (m & -> & Hm)%list_elem_of_fmap. by simpl.
Qed.

Lemma assembled_from_with_lag src m :
  m ∈ assembled src → col_ifr m ∈ with_lag (ifr_filtered (IFR_karol src)).
Proof.
  unfold assembled, add_ictwss, add_une, add_gdp, df1, col_ifr.
  intros Hm. do 3 apply elem_of_merge_left_fst in Hm.
  apply elem_of_merge_inner_fst in Hm.
  unfold with_nace in Hm. apply list_elem_of_omap in Hm as (x & Hx & Hn).
  destruct (IFR_TO_NACE !! _); simplify_eq/=.
  rewrite <- Hn. simpl.
  unfold ifr_frame in Hx. by apply list_elem_of_filter in Hx as [_ ?].
Qed.

Lemma lag_of_cleaned_candidates src r :
  r ∈ build_vars (assembled src) → lag_of r ≠ LNegInf.
Proof.
  intros (Hm & _)%elem_of_build_vars. unfold lag_of.
  apply assembled_from_with_lag, elem_of_with_lag in Hm as (_ & _ & Hlag).
  destruct Hlag as [->|[p ->]]; [done|].
  destruct (ln_robots_of_cases p)
    as [(-> & _)|[(q & _ & _ & ->)|(_ & ->)]]; done.
Qed.

Lemma elem_of_cleaned src r :
  r ∈ cleaned src ↔ required_present r = true ∧ r ∈ build_vars (assembled src).
Proof. unfold cleaned. by rewrite list_elem_of_filter. Qed.

(** The lag of a written row is read from a preceding observation of its
    entity whose stock is a positive number or inf. *)
Lemma lag_of_cleaned src r :
  r ∈ cleaned src →
  ∃ (i : nat) (p : ifr_in),
    with_lag (ifr_filtered (IFR_karol src)) !! i = Some (col_ifr (merged r))
    ∧ previous_observation (ifr_filtered (IFR_karol src)) i = Some p
    ∧ ((∃ q, robot_wrkr_stock_95 p = Num q ∧ (0 < q)%Q ∧ lag_of r = Ln q)
       ∨ robot_wrkr_stock_95 p = Inf false ∧ lag_of r = LPosInf).
Proof.
  intros [Hreq Hr]%elem_of_cleaned.
  apply elem_of_build_vars in Hr as (Hm & _).
  apply assembled_from_with_lag in Hm.
  apply list_elem_of_lookup in Hm as [i Hi]. exists i.
  pose proof (with_lag_lookup _ _ _ Hi) as [_ Hlag].
  unfold required_present in Hreq.
  apply andb_prop in Hreq as [[[_ Hl]%andb_prop _]%andb_prop _].
  unfold lag_of in *. rewrite Hlag in Hl |- *.
  destruct (previous_observation _ i) as [p|]; [|done]. exists p.
  split; [done|]. split; [done|]. simpl in *.
  destruct (ln_robots_of_cases p)
    as [(Hnan & _)|[(q & Hq & Hpos & ->)|(Hinf & ->)]].
  - by rewrite Hnan in Hl.
  - left. eauto.
  - by right.
Qed.

(** C2, as stated, fails on the robot log: a robot stock of zero is present
    in the raw data and its log is missing.  It fails on a clipped log too
    when the raw value is inf, which is present and whose log is inf. *)
Lemma ln_robots_undefined_at_zero :
  ¬ log_defined (robot_wrkr_stock_95 Fixture.zero_robots)
      (ln_robots_of Fixture.zero_robots)
  /\ ¬ log_defined (Inf false) (np_log (clip_lower floor (Inf false))).
Proof. split; intros H; specialize (H eq_refl); by vm_compute in H. Qed.

(** C2, amended. On every row of the assembled panel ln_hours, ln_va, ln_cap
    and ln_gdp are the log of the raw value clipped up to 0.1: finite
    wherever the raw value is a finite number (or -inf), inf where it is
    inf, missing where it is missing, and never -inf.  The robot log is not
    clipped: it is finite exactly where robot_wrkr_stock_95 is a positive
    finite number, inf exactly where the stock is inf, missing where the
    stock is zero or missing, and never -inf. *)
Theorem logs_defined_above_floor :
  forall src : sources,
    Forall (fun r =>
              let k := col_klems (merged r) in
              (log_above_floor (LAB_QI k) (ln_hours r)
               ∧ log_above_floor (VA_PYP k) (ln_va r)
               ∧ log_above_floor (CAP_QI k) (ln_cap r)
               ∧ log_above_floor (col_gdp (merged r)) (ln_gdp r))
              ∧ (finite (LAB_QI k) = true → ln_finite (ln_hours r) = true)
              ∧ (finite (VA_PYP k) = true → ln_finite (ln_va r) = true)
              ∧ (finite (CAP_QI k) = true → ln_finite (ln_cap r) = true)
              ∧ (finite (col_gdp (merged r)) = true
                 → ln_finite (ln_gdp r) = true)
              ∧ ln_hours r ≠ LNegInf ∧ ln_va r ≠ LNegInf
              ∧ ln_cap r ≠ LNegInf ∧ ln_gdp r ≠ LNegInf)
      (build_vars (assembled src))
    /\ Forall (fun r =>
                 ln_robots r ≠ LNegInf
                 ∧ (ln_finite (ln_robots r) = true
                    ↔ ∃ q, robot_wrkr_stock_95 (ifr_src r) = Num q ∧ (0 < q)%Q)
                 ∧ (ln_robots r = LPosInf
                    ↔ robot_wrkr_stock_95 (ifr_src r) = Inf false)
                 ∧ (zero_or_missing (Some (ifr_src r)) → ln_robots r = LNaN))
         (with_lag (ifr_filtered (IFR_karol src))).
Proof.
  assert (Hfin : forall c, finite c = true →
                   ln_finite (np_log (clip_lower floor c)) = true).
  { intros c Hc. pose proof (np_log_clip c) as H.
    destruct c as [|q|]; try done. destruct H as (v & -> & _). done. }
  intros src. split; apply Forall_forall; intros r Hr.
  - apply elem_of_build_vars in Hr as (_ & -> & -> & -> & -> & _).
    cbv zeta.
    repeat split;
      first [apply np_log_clip | apply Hfin | apply np_log_clip_not_neginf].
  - apply elem_of_with_lag in Hr as (_ & -> & _).
    split; [|split; [|split]].
    + destruct (ln_robots_of_cases (ifr_src r))
        as [(-> & _)|[(q & _ & _ & ->)|(_ & ->)]]; done.
    + destruct (ln_robots_of_cases (ifr_src r))
        as [(-> & Hno & _)|[(q & ? & ? & ->)|(Hinf & ->)]].
      * split; [done | by intros ?].
      * split; [intros _; eauto | done].
      * split; [done|]. intros (q & Hq & _). congruence.
    + destruct (ln_robots_of_cases (ifr_src r))
        as [(-> & _ & Hno)|[(q & Hq & _ & ->)|(Hinf & ->)]].
      * split; [done | by intros ?].
      * split; [done | intros ?; congruence].
      * done.
    + apply (ln_robots_of_zero_or_missing (Some (ifr_src r))).
Qed.

(** C2, amended, on the first row of the run of twelve rows: LAB_QI is a
    finite number and ln_hours is finite. *)
Lemma logs_defined_above_floor_witness :
  exists r, build_vars (assembled Fixture.src) !! 0%nat = Some r
            /\ finite (LAB_QI (col_klems (merged r))) = true
            /\ ln_finite (ln_hours r) = true.
Proof.
  eexists. split; [vm_compute; reflexivity|].
  split; [vm_compute; reflexivity|].
  pose proof (proj1 (logs_defined_above_floor Fixture.src)) as H.
  eapply (Forall_lookup_1 _ _ 0%nat) in H as (_ & Hh & _);
    [|vm_compute; reflexivity].
  apply Hh. vm_compute. reflexivity.
Defined.

(** C10, as stated, fails: the lag is read from the preceding row of the
    entity in the file, not from the year before.  An entity observed in
    1995 and 1997 only has its 1997 row written, with the log of the 1995
    stock as lag, though it has no value for 1996; in a file that lists 1997
    before 1996 and 1995, the 1996 row is written, with the log of the 1997
    stock as lag, though the stock of 1995 is zero; and after a stock of
    inf the row is written with a lag of inf, which is not finite. *)
Lemma cleaned_keeps_rows_after_zero_or_gap :
  (exists r, r ∈ cleaned (Fixture.src_with Fixture.gap_rows)
             ∧ year (observation r) = 1997%Z
             ∧ previous_year Fixture.gap_rows (observation r) = None
             ∧ zero_or_missing (previous_year Fixture.gap_rows (observation r))
             ∧ lag_of r = Ln 2)
  /\ (exists r, r ∈ cleaned (Fixture.src_with Fixture.unsorted_rows)
                ∧ year (observation r) = 1996%Z
                ∧ (robot_wrkr_stock_95
                     <$> previous_year Fixture.unsorted_rows (observation r))
                  = Some (Num 0)
                ∧ zero_or_missing
                    (previous_year Fixture.unsorted_rows (observation r))
                ∧ lag_of r = Ln 4)
  /\ (exists r, r ∈ cleaned (Fixture.src_with Fixture.infinite_rows)
                ∧ year (observation r) = 1996%Z
                ∧ lag_of r = LPosInf ∧ ¬ finite_logs r).
Proof.
  split; [|split].
  - eexists. split.
    { apply list_elem_of_lookup. exists 0%nat. vm_compute. reflexivity. }
    by vm_compute.
  - eexists. split.
    { apply list_elem_of_lookup. exists 0%nat. vm_compute. reflexivity. }
    by vm_compute.
  - eexists. split.
    { apply list_elem_of_lookup. exists 0%nat. vm_compute. reflexivity. }
    split; [by vm_compute|]. split; [by vm_compute|].
    intros (_ & Hlag & _). by vm_compute in Hlag.
Qed.

(** C10, amended. Every row written to the cleaned panel has ln_hours,
    ln_robots_lag1, ln_va and ln_cap present and none of them -inf; each of
    the three clipped logs is finite exactly when its raw value is not inf,
    the lag is finite unless a robot stock of the entity is inf, and so the
    four are finite on a run without an infinite value.  Because the robot
    log of a stock of zero is missing instead of clipped, in a file that
    lists the years of every entity in ascending order an entity-year is not
    written when the file holds the observation of the year before with a
    stock of zero or missing, nor when it is the first year of the entity. *)
Theorem cleaned_rows_have_finite_logs :
  forall src : sources,
    let rows := ifr_filtered (IFR_karol src) in
    let written := map (fun o => col_ifr (merged o)) (cleaned src) in
    Forall (fun r =>
              let k := col_klems (merged r) in
              (ln_notna (ln_hours r) = true ∧ ln_notna (lag_of r) = true
               ∧ ln_notna (ln_va r) = true ∧ ln_notna (ln_cap r) = true)
              ∧ (ln_hours r ≠ LNegInf ∧ lag_of r ≠ LNegInf
                 ∧ ln_va r ≠ LNegInf ∧ ln_cap r ≠ LNegInf)
              ∧ (ln_finite (ln_hours r) = true ↔ LAB_QI k ≠ Inf false)
              ∧ (ln_finite (ln_va r) = true ↔ VA_PYP k ≠ Inf false)
              ∧ (ln_finite (ln_cap r) = true ↔ CAP_QI k ≠ Inf false)
              ∧ (ln_finite (lag_of r) = true
                 ∨ lag_of r = LPosInf
                   ∧ ∃ p, p ∈ rows
                          ∧ entity_key p = entity_key (observation r)
                          ∧ robot_wrkr_stock_95 p = Inf false)
              ∧ (LAB_QI k ≠ Inf false ∧ VA_PYP k ≠ Inf false
                 ∧ CAP_QI k ≠ Inf false
                 ∧ Forall (fun p => robot_wrkr_stock_95 p ≠ Inf false) rows
                 → finite_logs r))
      (cleaned src)
    /\ (forall (i j : nat) (r : ifr_row) (p : ifr_in),
           years_ascending rows = true →
           with_lag rows !! i = Some r → rows !! j = Some p →
           entity_key p = entity_key (ifr_src r) →
           year p = (year (ifr_src r) - 1)%Z →
           zero_or_missing (Some p) →
           r ∉ written)
    /\ (forall (i : nat) (r : ifr_row),
           years_ascending rows = true →
           with_lag rows !! i = Some r →
           Forall (fun p => entity_key p = entity_key (ifr_src r)
                            → (year (ifr_src r) <= year p)%Z) rows →
           r ∉ written).
Proof.
  intros src rows written.
  assert (Hprev : forall i r, with_lag rows !! i = Some r →
                    zero_or_missing (previous_observation rows i) →
                    r ∉ written).
  { intros i r [_ Hlag]%with_lag_lookup Hprev.
    rewrite (ln_robots_of_zero_or_missing _ Hprev) in Hlag.
    intros (o & -> & [Hreq _]%elem_of_cleaned)%list_elem_of_fmap.
    unfold required_present, lag_of in Hreq. rewrite Hlag in Hreq.
    simpl in Hreq. by rewrite andb_false_r in Hreq. }
  split; [|split].
  - apply Forall_forall. intros r Hin.
    pose proof (lag_of_cleaned _ _ Hin) as (i & p & Hi & Hp & Hsrc).
    apply elem_of_cleaned in Hin as [Hreq Hr].
    pose proof (lag_of_cleaned_candidates _ _ Hr) as Hlag.
    apply elem_of_build_vars in Hr as (_ & Hh & Hv & Hc & _).
    unfold required_present in Hreq.
    apply andb_prop in Hreq as [[[H1 H2]%andb_prop H3]%andb_prop H4].
    assert (Hinf : ln_finite (lag_of r) = true
                   ∨ lag_of r = LPosInf
                     ∧ ∃ p, p ∈ rows
                            ∧ entity_key p = entity_key (observation r)
                            ∧ robot_wrkr_stock_95 p = Inf false).
    { destruct Hsrc as [(q & _ & _ & ->)|[Hstock ->]]; [by left|].
      right. split; [done|]. exists p.
      apply with_lag_lookup in Hi as [Hi _].
      apply previous_observation_Some in Hp as (x & Hx & Hpin & Hkey).
      unfold rows in *. rewrite Hi in Hx. injection Hx as <-. done. }
    pose proof H1 as N1. pose proof H3 as N3. pose proof H4 as N4.
    rewrite Hh in H1. rewrite Hv in H3. rewrite Hc in H4.
    apply np_log_clip_finite in H1 as [_ F1].
    apply np_log_clip_finite in H3 as [_ F3].
    apply np_log_clip_finite in H4 as [_ F4].
    rewrite <- Hh in F1. rewrite <- Hv in F3. rewrite <- Hc in F4.
    cbv zeta. split; [done|].
    split.
    { rewrite Hh, Hv, Hc. repeat split;
        first [done | apply np_log_clip_not_neginf]. }
    split; [done|]. split; [done|]. split; [done|]. split; [done|].
    intros (G1 & G3 & G4 & Hall). unfold finite_logs.
    rewrite F1, F3, F4. split; [done|]. split; [|done].
    destruct Hinf as [?|(_ & p' & Hp' & _ & Hs)]; [done|].
    rewrite Forall_forall in Hall. by destruct (Hall p' Hp').
  - intros i j r p Hasc Hr Hj Hkey Hyear Hzero. apply (Hprev i r Hr).
    pose proof (with_lag_lookup _ _ _ Hr) as [Hi _].
    by rewrite (previous_observation_previous_year _ _ _ _ _
                  Hasc Hi Hj Hkey Hyear).
  - intros i r Hasc Hr Hfirst. apply (Hprev i r Hr).
    pose proof (with_lag_lookup _ _ _ Hr) as [Hi _].
    destruct (previous_observation rows i) as [p|] eqn:Hp; [|done].
    exfalso. unfold previous_observation in Hp. rewrite Hi in Hp.
    simpl in Hp.
    destruct (list_find _ _) as [[m p']|] eqn:Hfind; [|done].
    injection Hp as ->.
    apply list_find_Some in Hfind as (Hm & Hkey & _).
    pose proof (lookup_lt_Some _ _ _ Hi) as Hlen.
    apply reverse_lookup_Some in Hm as [Hm Hmlen].
    rewrite length_take_le in Hm, Hmlen by lia.
    rewrite lookup_take_lt in Hm by lia.
    assert (i - S m < i)%nat as Hlt by lia.
    pose proof (years_ascending_lookup _ _ _ _ _ Hasc Hm Hi Hlt Hkey) as Hy.
    rewrite Forall_forall in Hfirst.
    assert (p ∈ rows) as Hpin by (apply list_elem_of_lookup; eauto).
    specialize (Hfirst p Hpin Hkey). lia.
Qed.

(** C10, amended, on the run without robots in German machinery in 1995,
    whose file is in year order and holds no infinite value: the rows
    written have finite logs, and the observation of 1996 is not written. *)
Lemma cleaned_rows_have_finite_logs_witness :
  years_ascending (ifr_filtered Fixture.ifr_rows_zero) = true
  /\ (Fixture.after_zero
      ∉ map (fun o => col_ifr (merged o)) (cleaned Fixture.src_zero))
  /\ (exists r, cleaned Fixture.src_zero !! 0%nat = Some r /\ finite_logs r).
Proof.
  split; [vm_compute; reflexivity|]. split.
  - apply (proj1 (proj2 (cleaned_rows_have_finite_logs Fixture.src_zero))
             1%nat 0%nat Fixture.after_zero
             {| country_code := "DE"; industry_code := "28"; year := 1995;
                robot_wrkr_stock_95 := Num 0 |}).
    + vm_compute. reflexivity.
    + vm_compute. reflexivity.
    + vm_compute. reflexivity.
    + vm_compute. reflexivity.
    + vm_compute. reflexivity.
    + vm_compute. reflexivity.
  - eexists. split; [vm_compute; reflexivity|].
    pose proof (proj1 (cleaned_rows_have_finite_logs Fixture.src_zero)) as H.
    eapply (Forall_lookup_1 _ _ 0%nat) in H; [|vm_compute; reflexivity].
    cbv zeta in H. destruct H as (_ & _ & _ & _ & _ & _ & Hfin).
    apply Hfin. split; [by vm_compute|]. split; [by vm_compute|].
    split; [by vm_compute|].
    vm_compute. repeat (apply Forall_cons_2; [done|]). apply Forall_nil_2.
Defined.

(** C1, the failing input. An entity observed in 1995 and 1997 only: the lag
    at 1997 is the log of the 1995 value, carried over the gap, where the
    lag of the year before, 1996, is missing. *)
Theorem lag1_carries_over_gap :
  map (fun r => (year (ifr_src r), ln_robots r, ln_robots_lag1 r))
    (with_lag (ifr_filtered Fixture.gap_rows))
  = [ (1995%Z, Ln 2, LNaN); (1997%Z, Ln 3, Ln 2) ].
Proof. by vm_compute. Qed.

End CleaningFacts.

Section EquationFacts.
Import CleanedData EquationUtils Equation5.

Lemma elem_of_drop_duplicates_from seen df r :
  r ∈ drop_duplicates_from seen df → r ∈ df.
Proof.
  revert seen. induction df as [|x df IH]; intros seen; simpl; [done|].
  case_decide; rewrite ?elem_of_cons; intros Hr; [right; eauto|].
  destruct Hr as [->|Hr]; [by left | right; eauto].
Qed.

Lemma elem_of_prepare_panel (df : list row) require r :
  r ∈ prepare_panel df require → r ∈ df.
Proof.
  unfold prepare_panel, drop_duplicates.
  rewrite merge_sort_Permutation.
  intros H%elem_of_drop_duplicates_from. by apply list_elem_of_filter in H as [_ ?].
Qed.

Lemma elem_of_dropna_controls controls (df : list row) r :
  r ∈ fold_left (fun d c => filter (fun r => control_notna c r = true) d)
        controls df →
  r ∈ df.
Proof.
  revert df. induction controls as [|c controls IH]; intros df; simpl; [done|].
  intros H%IH. by apply list_elem_of_filter in H as [_ ?].
Qed.

(** With the [adjcov_centered] column in the file, [step_model] only drops
    rows: the rows it estimates on are rows of the file. *)
Lemma elem_of_model_frame (df : list row) r :
  r ∈ model_frame {| has_adjcov_centered := true; rows := df |} → r ∈ df.
Proof.
  unfold model_frame, coverage_sample, drop_duplicates.
  cbn [has_adjcov_centered rows].
  intros [_ H]%list_elem_of_filter.
  apply elem_of_drop_duplicates_from in H.
  apply (elem_of_dropna_controls (get_controls df)) in H.
  by apply elem_of_prepare_panel in H.
Qed.

(** Without the column in the file, [step_model] centers on the mean over
    its own sample, once and before the industries are cut: the constant is
    still the same in every subgroup, but it is not the mean over the
    assembled panel. *)
Lemma fallback_centering_constant (df : list row) ind :
  let df_raw := {| has_adjcov_centered := false; rows := df |} in
  Forall (fun r =>
            adjcov_centered r
            = cell_sub (adjcov r)
                (cell_mean (map adjcov (coverage_sample df_raw))))
    (subgroup ind (model_frame df_raw)).
Proof.
  intros df_raw. apply Forall_forall. intros r [_ Hr]%list_elem_of_filter.
  unfold model_frame in Hr. cbn [has_adjcov_centered df_raw] in Hr.
  apply list_elem_of_filter in Hr as [_ Hr].
  by apply list_elem_of_fmap in Hr as (x & -> & _).
Qed.

(** C8. The centering constant of the coverage moderator is the mean of
    adjcov over the assembled panel, taken once before rows are dropped:
    in every industry subgroup of the per-industry model run on the cleaned
    panel, adjcov_centered is adjcov minus that one constant.  On a run where
    the mean is 87.8 over the assembled panel and 87 over the rows that are
    kept, the subgroup has 83 - 87.8 and 95 - 87.8. *)
Theorem centering_constant_is_global :
  (forall (src : Cleaning.sources) (ind : string),
      Forall (fun r =>
                adjcov_centered r
                = cell_sub (adjcov r)
                    (Cleaning.adj_mean (Cleaning.assembled src)))
        (subgroup ind (model_frame (Cleaning.df_out src))))
  /\ cell_red (Cleaning.adj_mean (Cleaning.assembled Cleaning.Fixture.src_centering))
     = Num (439 # 5)
  /\ cell_red (cell_mean (map Cleaning.adjcov
                            (Cleaning.cleaned Cleaning.Fixture.src_centering)))
     = Num 87
  /\ map (fun r => (country_code r, year_int r, cell_red (adjcov r),
                    cell_red (adjcov_centered r)))
       (subgroup "C28" (model_frame (Cleaning.df_out Cleaning.Fixture.src_centering)))
     = [ ("DE", 1996%Z, Num 83, Num (-24 # 5));
         ("DE", 1997%Z, Num 83, Num (-24 # 5));
         ("FR", 1996%Z, Num 95, Num (36 # 5)) ].
Proof.
  split; [|by vm_compute].
  intros src ind. apply Forall_forall. intros r [_ Hr]%list_elem_of_filter.
  apply elem_of_model_frame in Hr. simpl in Hr.
  apply list_elem_of_fmap in Hr as (p & -> & Hp). simpl.
  apply elem_of_cleaned in Hp as [_ Hp].
  by apply elem_of_build_vars in Hp as (_ & _ & _ & _ & _ & -> & ->).
Qed.

(** *** The gate *)

Lemma std_lt_false s eps : std_lt s eps = false ↔ std_not_below s eps.
Proof.
  unfold std_lt, std_not_below. destruct (std_squared s) as [v|]; [|done].
  destruct (Qlt_le_dec v (eps * eps)) as [Hlt|Hle]; split; try done.
  intros Hle. by apply Qlt_not_le in Hlt.
Qed.

Lemma gate_None df_ind :
  gate df_ind = None
  ↔ (MIN_COUNTRIES ≤ n_countries df_ind)%nat ∧ (MIN_OBS ≤ length df_ind)%nat
    ∧ std_not_below (map adjcov_centered df_ind) EPS.
Proof.
  unfold gate. rewrite <- std_lt_false.
  destruct (Nat.ltb_spec (n_countries df_ind) MIN_COUNTRIES) as [Hc|Hc].
  { split; [done | intros [? _]; lia]. }
  destruct (Nat.ltb_spec (length df_ind) MIN_OBS) as [Ho|Ho].
  { split; [done | intros (_ & ? & _); lia]. }
  destruct (std_lt _ EPS); split; try done. by intros (_ & _ & ?).
Qed.

Section StepModelFacts.
Variable fit : Type.
Variable run_panelols : list row -> string + fit.

Lemma step_skipped df inds acc :
  skipped _ (fold_left (step fit run_panelols df) inds acc)
  = (skipped _ acc ++ omap (skip_of df) inds)%list.
Proof.
  revert acc. induction inds as [|ind inds IH]; intros acc; simpl.
  - by rewrite app_nil_r.
  - rewrite IH. unfold step, skip_of.
    destruct (gate (subgroup ind df)) as [why|]; simpl.
    + by rewrite <- app_assoc.
    + by destruct (run_panelols _).
Qed.

Lemma step_tried df inds acc :
  (map (fun e => e.1.1) (results _ (fold_left (step fit run_panelols df) inds acc))
   ++ map industry (failed _ (fold_left (step fit run_panelols df) inds acc))
   ≡ₚ (map (fun e => e.1.1) (results _ acc) ++ map industry (failed _ acc))
      ++ filter (fun ind => tried df ind = true) inds)%list.
Proof.
  revert acc. induction inds as [|ind inds IH]; intros acc; simpl.
  - by rewrite app_nil_r.
  - rewrite IH. rewrite filter_cons. unfold step.
    case_decide as Ht; unfold tried in Ht;
      destruct (gate (subgroup ind df)) as [why|]; try done; simpl.
    destruct (run_panelols _) as [e|res]; simpl;
      rewrite !map_app; simpl; rewrite <- !app_assoc; simpl.
    + apply Permutation_app_head. by rewrite <- Permutation_middle.
    + apply Permutation_app_head. symmetry.
      rewrite <- Permutation_middle. by apply Permutation_cons.
Qed.

End StepModelFacts.

(** C4, as stated, fails at the threshold of the moderator: fifty rows from
    five countries whose moderator has a standard deviation of exactly 1e-10
    go on to estimation, though the deviation does not exceed 1e-10. *)
Lemma gate_passes_std_equal_to_epsilon :
  ¬ (gate at_epsilon = None
     ↔ (MIN_COUNTRIES ≤ n_countries at_epsilon)%nat
       ∧ (MIN_OBS ≤ length at_epsilon)%nat
       ∧ std_exceeds (map adjcov_centered at_epsilon) EPS).
Proof.
  intros [H _]. destruct (H ltac:(by vm_compute)) as (_ & _ & Hstd).
  vm_compute in Hstd. done.
Qed.

(** C4, amended. An industry subgroup goes on to estimation iff it has at
    least 5 distinct countries, at least 50 rows, and a standard deviation of
    the centered coverage moderator that is not below 1e-10; a subgroup with
    4 countries is skipped and one with 5 is estimated, the other conditions
    holding; and every industry of the model frame is either recorded in the
    skipped list with its reason or handed to the estimator. *)
Theorem gate_usable_iff :
  (forall df_ind : list row,
      gate df_ind = None
      ↔ (MIN_COUNTRIES ≤ n_countries df_ind)%nat
        ∧ (MIN_OBS ≤ length df_ind)%nat
        ∧ std_not_below (map adjcov_centered df_ind) EPS)
  /\ (n_countries four_countries = 4%nat
      ∧ gate four_countries = Some "only 4 countries")
  /\ (n_countries five_countries = 5%nat ∧ gate five_countries = None)
  /\ gate forty_nine_rows = Some "only 49 obs"
  /\ (forall (fit : Type) (run_panelols : list row -> string + fit)
             (df_raw : frame),
         let df := model_frame df_raw in
         let out := step_model fit run_panelols df_raw in
         Forall (fun ind =>
                   match gate (subgroup ind df) with
                   | Some why =>
                       {| industry := ind; reason := why;
                          n_obs := length (subgroup ind df) |} ∈ skipped _ out
                   | None =>
                       ind ∈ (map (fun e => e.1.1) (results _ out)
                              ++ map industry (failed _ out))%list
                   end) (industries df)).
Proof.
  split; [apply gate_None|].
  do 3 (split; [by vm_compute|]).
  intros fit run_panelols df_raw df out. apply Forall_forall. intros ind Hind.
  destruct (gate (subgroup ind df)) as [why|] eqn:Hgate.
  - unfold out, step_model. fold df. rewrite step_skipped. simpl.
    apply list_elem_of_omap. exists ind. split; [done|].
    unfold skip_of. by rewrite Hgate.
  - unfold out, step_model. fold df. rewrite step_tried. simpl.
    apply list_elem_of_filter. split; [|done]. unfold tried. by rewrite Hgate.
Qed.

End EquationFacts.

Section LoaderFacts.
Import Py DataCheck Cleaning.

Lemma load_csv_Some {file frame} (reader : file -> result frame) dir path df :
  load_csv reader dir path = inr df → is_Some (dir !! path).
Proof. unfold load_csv. by destruct (dir !! path). Qed.

(** C6, as stated, fails on the loader of the cleaning script: with the
    unemployment file missing, [load_csv] raises FileNotFoundError and the
    run of [main] ends with that exception. *)
Lemma main_raises_on_missing_source :
  load_csv read_any dir_without_une "eurostat_employment_une_rt_a.csv"
  = inl (FileNotFoundError "eurostat_employment_une_rt_a.csv")
  /\ main_loads read_any dir_without_une
     = inl (FileNotFoundError "eurostat_employment_une_rt_a.csv").
Proof. by vm_compute. Qed.

(** C6, amended. The loader of the data check, [load_safe], always returns:
    the absent sentinel None when the file does not exist or the reader
    fails, the frame otherwise.  The loader of the cleaning script,
    [load_csv], raises FileNotFoundError for a file that does not exist and
    passes on a failure of the reader; [main] loads all its sources only
    when every one of them exists. *)
Theorem load_safe_returns_load_csv_raises :
  forall (file frame : Type) (reader : file -> result frame)
         (dir : data_dir file) (path : string),
    (exists r, load_safe reader dir path = inr r)
    /\ (load_safe reader dir path = inr None
        ↔ dir !! path = None
          ∨ ∃ f e, dir !! path = Some f ∧ reader f = inl e)
    /\ (forall f df, dir !! path = Some f → reader f = inr df →
                     load_safe reader dir path = inr (Some df))
    /\ (dir !! path = None →
        load_csv reader dir path = inl (FileNotFoundError path))
    /\ (forall f, dir !! path = Some f →
                  load_csv reader dir path = reader f)
    /\ (forall frames, main_loads reader dir = inr frames →
          is_Some (dir !! "IFR_karol.csv")
          ∧ is_Some (dir !! "klems_growth_accounts_basic.csv")
          ∧ is_Some (dir !! "ictwss_institutions.csv")
          ∧ is_Some (dir !! gdp_path dir)
          ∧ is_Some (dir !! "eurostat_employment_une_rt_a.csv")).
Proof.
  intros file frame reader dir path. unfold load_safe.
  split; [|split; [|split; [|split; [|split]]]].
  - destruct (dir !! path) as [f|]; [destruct (reader f)|]; eauto.
  - destruct (dir !! path) as [f|] eqn:Hf; [|by split; [left|]].
    destruct (reader f) as [e|df] eqn:Hr.
    + split; [right; eauto | done].
    + split; [done|]. intros [?|(f' & e & [= <-] & ?)]; congruence.
  - intros f df -> ->. done.
  - unfold load_csv. by intros ->.
  - unfold load_csv. by intros f ->.
  - intros frames. unfold main_loads.
    destruct (load_csv reader dir "IFR_karol.csv") eqn:H1; [done|].
    destruct (load_csv reader dir "klems_growth_accounts_basic.csv") eqn:H2;
      [done|].
    destruct (load_csv reader dir "ictwss_institutions.csv") eqn:H3; [done|].
    destruct (load_csv reader dir (gdp_path dir)) eqn:H4; [done|].
    destruct (load_csv reader dir "eurostat_employment_une_rt_a.csv") eqn:H5;
      [done|].
    intros _. repeat split; by eapply load_csv_Some.
Qed.

(** C6, amended, on the directory without the unemployment file. *)
Lemma load_safe_returns_load_csv_raises_witness :
  load_safe read_any dir_without_une "eurostat_employment_une_rt_a.csv"
  = inr None
  /\ load_csv read_any dir_without_une "eurostat_employment_une_rt_a.csv"
     = inl (FileNotFoundError "eurostat_employment_une_rt_a.csv")
  /\ load_safe read_any dir_without_une "IFR_karol.csv" = inr (Some "ifr")
  /\ load_csv read_any dir_without_une "IFR_karol.csv" = inr "ifr".
Proof.
  pose proof (load_safe_returns_load_csv_raises string string read_any
                dir_without_une "eurostat_employment_une_rt_a.csv")
    as (_ & Hnone & _ & Hraise & _).
  pose proof (load_safe_returns_load_csv_raises string string read_any
                dir_without_une "IFR_karol.csv")
    as (_ & _ & Hsome & _ & Hread & _).
  split; [|split; [|split]].
  - apply Hnone. left. vm_compute. reflexivity.
  - apply Hraise. vm_compute. reflexivity.
  - apply (Hsome "ifr"); vm_compute; reflexivity.
  - rewrite (Hread "ifr"); vm_compute; reflexivity.
Defined.

End LoaderFacts.

Section NormalizerFacts.
Import DataCheck Cleaning.



End NormalizerFacts.

(** * Further properties of the cleaning script *)

Section MergeInnerFacts.
Import Frame.
Context {A B K : Type} `{EqDecision K}.
Variable left_on : A -> K.
Variable right_on : B -> K.

Lemma elem_of_merge_inner (left : list A) (right : list B) p :
  p ∈ merge_inner left_on right_on left right
  ↔ p.1 ∈ left ∧ p.2 ∈ right ∧ right_on p.2 = left_on p.1.
Proof.
  unfold merge_inner, matching. rewrite list_elem_of_In, in_flat_map. split.
  - intros (a & Ha & Hp). apply in_map_iff in Hp as (b & <- & Hb).
    apply list_elem_of_In, list_elem_of_filter in Hb as [? ?].
    by rewrite list_elem_of_In.
  - intros (Ha & Hb & Hk). exists p.1. split; [by apply list_elem_of_In|].
    destruct p as [a b]. simpl in *. apply in_map.
    apply list_elem_of_In, list_elem_of_filter. done.
Qed.

Lemma merge_inner_unique_sublist (left : list A) (right : list B) :
  NoDup (map right_on right) →
  map fst (merge_inner left_on right_on left right) `sublist_of` left.
Proof.
  intros Hnd. unfold merge_inner.
  induction left as [|a left IH]; simpl; [done|].
  rewrite map_app, map_map. simpl.
  pose proof (matching_unique left_on right_on a right Hnd) as Hlen.
  destruct (matching left_on right_on a right) as [|b [|b' bs]];
    simpl in *; [by apply sublist_cons | by apply sublist_skip | lia].
Qed.

Lemma merge_left_key_determined (left : list A) (right : list B) p q :
  NoDup (map right_on right) →
  p ∈ merge_left left_on right_on left right →
  q ∈ merge_left left_on right_on left right →
  left_on p.1 = left_on q.1 → p.2 = q.2.
Proof.
  intros Hnd. rewrite merge_left_unique by done.
  intros (a & -> & _)%list_elem_of_fmap (b & -> & _)%list_elem_of_fmap. simpl.
  unfold matching. by intros ->.
Qed.

End MergeInnerFacts.

Section CleaningInvariants.
Import Cleaning.

Lemma elem_of_with_nace ifr r n :
  (r, n) ∈ with_nace ifr
  ↔ r ∈ ifr ∧ IFR_TO_NACE !! industry_code (ifr_src r) = Some n.
Proof.
  unfold with_nace. rewrite list_elem_of_omap. split.
  - intros (x & Hx & Hn). destruct (IFR_TO_NACE !! _) eqn:E; simplify_eq/=.
    done.
  - intros [Hr Hn]. exists r. by rewrite Hn.
Qed.

Lemma elem_of_ifr_frame ifr r :
  r ∈ ifr_frame ifr
  → r ∈ with_lag (ifr_filtered ifr)
    ∧ (1995 <= year (ifr_src r) <= 2019)%Z
    ∧ country_code (ifr_src r) ∈ EU_ISO2
    ∧ industry_code (ifr_src r) ∈ dom IFR_TO_NACE.
Proof.
  unfold ifr_frame. intros [Hy Hr]%list_elem_of_filter. split; [done|].
  apply elem_of_with_lag in Hr as (Hr & _). unfold ifr_filtered in Hr.
  apply list_elem_of_filter in Hr as [Hyears Hr].
  apply list_elem_of_filter in Hr as [Hind Hr].
  apply list_elem_of_filter in Hr as [Hc _]. split; [lia | done].
Qed.

Lemma elem_of_df1 (src : sources) (m : ifr_row * string * klems_row) :
  m ∈ df1 src
  ↔ m.1.1 ∈ ifr_frame (IFR_karol src)
    ∧ IFR_TO_NACE !! industry_code (ifr_src m.1.1) = Some m.1.2
    ∧ m.2 ∈ klems_wide src
    ∧ k_country_code m.2 = country_code (ifr_src m.1.1)
    ∧ k_nace_r2_code m.2 = m.1.2
    ∧ k_year m.2 = year (ifr_src m.1.1).
Proof.
  destruct m as [[r n] k]. unfold df1. rewrite elem_of_merge_inner.
  cbn [fst snd]. rewrite elem_of_with_nace. unfold klems_key, ifr_key.
  cbn [fst snd]. split.
  - intros ((? & ?) & ? & [= ? ? ?]). done.
  - intros (? & ? & ? & -> & -> & ->). done.
Qed.

(** X1. The sample-defining join: a row is in the frame after the inner
    merge of line 142 exactly when it pairs an IFR observation of the IFR
    frame, with the NACE code its industry is mapped to, and a KLEMS row of
    the same country, NACE code and year.  An observation with no such KLEMS
    row is not in the panel. *)
Theorem df1_pairs_matching_rows :
  forall (src : sources) (m : ifr_row * string * klems_row),
    m ∈ df1 src
    ↔ m.1.1 ∈ ifr_frame (IFR_karol src)
      ∧ IFR_TO_NACE !! industry_code (ifr_src m.1.1) = Some m.1.2
      ∧ m.2 ∈ klems_wide src
      ∧ k_country_code m.2 = country_code (ifr_src m.1.1)
      ∧ k_nace_r2_code m.2 = m.1.2
      ∧ k_year m.2 = year (ifr_src m.1.1).
Proof. exact elem_of_df1. Qed.

Lemma assembled_from_df1 src m :
  m ∈ assembled src → m.1.1.1 ∈ df1 src.
Proof.
  unfold assembled, add_ictwss, add_une, add_gdp.
  intros Hm. by do 3 apply elem_of_merge_left_fst in Hm.
Qed.

Lemma cleaned_country_in_EU src r :
  r ∈ cleaned src → country_code (observation r) ∈ EU_ISO2.
Proof.
  intros [_ Hr]%elem_of_cleaned.
  apply elem_of_build_vars in Hr as (Hm & _).
  apply assembled_from_with_lag, elem_of_with_lag in Hm as (Hm & _).
  unfold ifr_filtered in Hm.
  apply list_elem_of_filter in Hm as [_ Hm].
  apply list_elem_of_filter in Hm as [_ Hm].
  by apply list_elem_of_filter in Hm as [? _].
Qed.

(** X2. Every row written to the cleaned panel lies in the target sample:
    its year is in 1995-2019, its country is in EU_ISO2, its NACE code is the
    one IFR_TO_NACE gives for its industry, and its KLEMS columns come from
    the KLEMS row of that country, NACE code and year. *)
Theorem cleaned_rows_in_target_sample :
  forall src : sources,
    Forall (fun r =>
              (1995 <= year (observation r) <= 2019)%Z
              ∧ country_code (observation r) ∈ EU_ISO2
              ∧ IFR_TO_NACE !! industry_code (observation r)
                = Some (col_nace_r2_code (merged r))
              ∧ col_klems (merged r) ∈ klems_wide src
              ∧ klems_key (col_klems (merged r))
                = (country_code (observation r), col_nace_r2_code (merged r),
                   year (observation r)))
      (cleaned src).
Proof.
  intros src. apply Forall_forall. intros r [_ Hr]%elem_of_cleaned.
  apply elem_of_build_vars in Hr as (Hm & _).
  apply assembled_from_df1, elem_of_df1 in Hm
    as (Hf & Hn & Hk & Hc & Hnace & Hy).
  apply elem_of_ifr_frame in Hf as (_ & Hyear & Hcountry & _).
  unfold observation, col_ifr, col_nace_r2_code, col_klems, klems_key.
  rewrite Hc, Hnace, Hy. done.
Qed.

(** X3. The institutional values are constant within a country: two rows of
    the assembled panel with the same country, whatever their industry and
    year, have the same AdjCov and Coord, and so the same adjcov_centered
    and high_coord. *)
Theorem institutions_constant_within_country :
  forall (src : sources) (r1 r2 : panel_row),
    r1 ∈ build_vars (assembled src) →
    r2 ∈ build_vars (assembled src) →
    country_code (observation r1) = country_code (observation r2) →
    adjcov r1 = adjcov r2 ∧ coord r1 = coord r2
    ∧ adjcov_centered r1 = adjcov_centered r2
    ∧ high_coord r1 = high_coord r2.
Proof.
  intros src r1 r2 H1 H2 Hc. unfold build_vars in H1, H2.
  apply list_elem_of_fmap in H1 as (m1 & -> & Hm1).
  apply list_elem_of_fmap in H2 as (m2 & -> & Hm2). simpl.
  assert (Hb : m1.2 = m2.2).
  { unfold assembled, add_ictwss in Hm1, Hm2.
    eapply merge_left_key_determined;
      [apply NoDup_ictwss_baseline | done | done | done]. }
  unfold col_AdjCov, col_Coord. by rewrite Hb.
Qed.

Lemma institutions_constant_within_country_witness :
  exists r1 r2,
    build_vars (assembled Fixture.src) !! 0%nat = Some r1
    /\ build_vars (assembled Fixture.src) !! 4%nat = Some r2
    /\ year (observation r1) ≠ year (observation r2)
    /\ adjcov r1 = adjcov r2 /\ coord r1 = coord r2
    /\ adjcov_centered r1 = adjcov_centered r2
    /\ high_coord r1 = high_coord r2.
Proof.
  eexists. eexists.
  split; [vm_compute; reflexivity|].
  split; [vm_compute; reflexivity|].
  split; [by vm_compute|].
  apply (institutions_constant_within_country Fixture.src).
  - apply list_elem_of_lookup. exists 0%nat. vm_compute. reflexivity.
  - apply list_elem_of_lookup. exists 4%nat. vm_compute. reflexivity.
  - vm_compute. reflexivity.
Defined.

(** *** Sums and lengths *)

Lemma Qlen_cons {A} (x : A) l : (Qlen (x :: l) == Qlen l + 1)%Q.
Proof.
  unfold Qlen. cbn [length]. rewrite Nat2Z.inj_succ, <- Z.add_1_r.
  by rewrite inject_Z_plus.
Qed.

Lemma Qlen_nonneg {A} (l : list A) : (0 <= Qlen l)%Q.
Proof.
  unfold Qlen. change 0%Q with (inject_Z 0). rewrite <- Zle_Qle. lia.
Qed.

Lemma Qsum_shift c l :
  (Qsum (map (fun x => x - c) l) == Qsum l - Qlen l * c)%Q.
Proof.
  induction l as [|x l IH]; simpl.
  - unfold Qlen. simpl. ring.
  - rewrite IH, Qlen_cons. ring.
Qed.

(** *** The lag *)

(** X5. The lag of an observation is the robot log of the nearest preceding
    row of its entity in the IFR frame, and missing when the entity has no
    preceding row; when the rows of the entity are in ascending year order
    and the entity is observed in the year before, this is the robot log of
    the year before. *)
Theorem lag_reads_preceding_observation :
  forall (ifr : list ifr_in) (i : nat) (r : ifr_row),
    let rows := ifr_filtered ifr in
    with_lag rows !! i = Some r →
    rows !! i = Some (ifr_src r)
    ∧ ln_robots r = ln_robots_of (ifr_src r)
    ∧ ln_robots_lag1 r
      = from_option ln_robots_of LNaN (previous_observation rows i)
    ∧ (Forall (fun p => entity_key p ≠ entity_key (ifr_src r)) (take i rows) →
       ln_robots_lag1 r = LNaN)
    ∧ (forall j p,
          years_ascending rows = true → rows !! j = Some p →
          entity_key p = entity_key (ifr_src r) →
          year p = (year (ifr_src r) - 1)%Z →
          ln_robots_lag1 r = ln_robots_of p).
Proof.
  intros ifr i r rows Hr.
  pose proof (with_lag_lookup _ _ _ Hr) as [Hi Hlag].
  split; [done|]. split.
  { apply list_elem_of_lookup_2 in Hr. by apply elem_of_with_lag in Hr as (_ & ? & _). }
  split; [done|]. split.
  - by apply (lag1_of_first_observation _ _ _ Hr).
  - intros j p Hasc Hj Hkey Hyear.
    by apply (lag1_of_previous_year _ _ _ _ _ Hasc Hr Hj Hkey Hyear).
Qed.

Lemma lag_reads_preceding_observation_witness :
  exists r p,
    with_lag (ifr_filtered Fixture.ifr_rows) !! 1%nat = Some r
    /\ ifr_filtered Fixture.ifr_rows !! 0%nat = Some p
    /\ year (ifr_src r) = 1996%Z /\ year p = 1995%Z
    /\ ln_robots_lag1 r = ln_robots_of p.
Proof.
  eexists. eexists.
  split; [vm_compute; reflexivity|].
  split; [vm_compute; reflexivity|].
  split; [reflexivity|]. split; [reflexivity|].
  eapply (proj2 (proj2 (proj2 (proj2
            (lag_reads_preceding_observation Fixture.ifr_rows 1%nat _ _))))
            0%nat).
  - vm_compute. reflexivity.
  - vm_compute. reflexivity.
  - vm_compute. reflexivity.
  - vm_compute. reflexivity.
  Unshelve. vm_compute. reflexivity.
Defined.

(** *** One row per entity and year *)

Lemma with_lag_sources rows : map ifr_src (with_lag rows) = rows.
Proof.
  unfold with_lag, Frame.groupby_shift1. generalize (@nil ifr_in) as before.
  induction rows as [|r rows IH]; intros before; simpl; [done|].
  by rewrite IH.
Qed.

Lemma sublist_map {A B} (f : A -> B) l1 l2 :
  l1 `sublist_of` l2 → map f l1 `sublist_of` map f l2.
Proof. apply (fmap_sublist f). Qed.

Lemma omap_tagged_sublist {A B} (g : A -> option B) (l : list A) :
  map fst (omap (fun r => n ← g r; Some (r, n)) l) `sublist_of` l.
Proof.
  induction l as [|r l IH]; simpl; [done|].
  destruct (g r); simpl; [by apply sublist_skip | by apply sublist_cons].
Qed.

Lemma with_nace_sublist ifr : map fst (with_nace ifr) `sublist_of` ifr.
Proof. apply omap_tagged_sublist. Qed.

Lemma ifr_filtered_sublist ifr : ifr_filtered ifr `sublist_of` ifr.
Proof.
  unfold ifr_filtered.
  etrans; [apply sublist_filter|]. etrans; [apply sublist_filter|].
  apply sublist_filter.
Qed.

(** With one KLEMS row per key, the observations of the cleaned panel are
    observations of the IFR file, each used at most once and in file
    order. *)
Lemma cleaned_observations_sublist src :
  NoDup (map klems_key (klems_wide src)) →
  map observation (cleaned src) `sublist_of` IFR_karol src.
Proof.
  intros Hk.
  assert (Hass : map col_ifr (assembled src)
                 `sublist_of` ifr_frame (IFR_karol src)).
  { replace (map col_ifr (assembled src))
      with (map fst (map fst (map fst (map fst (map fst (assembled src))))))
      by (rewrite !map_map; done).
    unfold assembled, add_ictwss, add_une, add_gdp.
    rewrite (merge_left_unique_fst _ _ _ _ (NoDup_ictwss_baseline _)).
    rewrite (merge_left_unique_fst _ _ _ _ (NoDup_eurostat_frame _)).
    rewrite (merge_left_unique_fst _ _ _ _ (NoDup_eurostat_frame _)).
    etrans; [|apply with_nace_sublist]. apply sublist_map.
    unfold df1. by apply merge_inner_unique_sublist. }
  unfold cleaned.
  replace (map observation (filter _ (build_vars (assembled src))))
    with (map ifr_src (map (fun r => col_ifr (merged r))
                         (filter (fun r => required_present r = true)
                            (build_vars (assembled src)))))
    by (rewrite map_map; done).
  etrans; [|apply ifr_filtered_sublist].
  rewrite <- (with_lag_sources (ifr_filtered (IFR_karol src))).
  apply sublist_map.
  etrans; [apply sublist_map, sublist_filter|].
  unfold build_vars. rewrite map_map. simpl.
  etrans; [apply Hass|]. unfold ifr_frame. apply sublist_filter.
Qed.

Lemma append_inj_length (a b s t : string) :
  String.length a = String.length b → a +:+ s = b +:+ t → a = b ∧ s = t.
Proof.
  revert b. induction a as [|x a IH]; intros [|y b]; simpl; try done.
  intros [= Hlen] [= -> Happ]. destruct (IH b Hlen Happ) as [-> ->]. done.
Qed.

Lemma EU_ISO2_two_letters c : c ∈ EU_ISO2 → String.length c = 2%nat.
Proof.
  revert c. change (set_Forall (fun c => String.length c = 2%nat) EU_ISO2).
  apply (bool_decide_unpack _). by vm_compute.
Qed.

(** The entity label tells the country and the industry apart. *)
Lemma entity_inj c1 i1 c2 i2 :
  c1 ∈ EU_ISO2 → c2 ∈ EU_ISO2 →
  c1 +:+ "_" +:+ i1 = c2 +:+ "_" +:+ i2 → c1 = c2 ∧ i1 = i2.
Proof.
  intros H1%EU_ISO2_two_letters H2%EU_ISO2_two_letters Heq.
  apply append_inj_length in Heq as [-> Heq]; [|congruence].
  injection Heq as Heq. split; [done | exact Heq].
Qed.

(** X6. The cleaned panel has one row per entity and year: when the IFR
    file has one row per (country, industry, year) and the KLEMS frame one
    row per (country, NACE code, year), no two rows written to
    cleaned_data.csv have the same (entity, year_int), and the entity label
    country_industry names one country and one industry. *)
Theorem cleaned_panel_index_unique :
  forall src : sources,
    NoDup (map observation_key (IFR_karol src)) →
    NoDup (map klems_key (klems_wide src)) →
    NoDup (map (fun r => observation_key (observation r)) (cleaned src))
    ∧ NoDup (map CleanedData.index_key (CleanedData.rows (df_out src)))
    ∧ (forall r1 r2, r1 ∈ cleaned src → r2 ∈ cleaned src →
         CleanedData.entity (to_csv r1) = CleanedData.entity (to_csv r2) →
         country_code (observation r1) = country_code (observation r2)
         ∧ industry_code (observation r1) = industry_code (observation r2)).
Proof.
  intros src Hifr Hklems.
  assert (Hkeys : NoDup (map (fun r => observation_key (observation r))
                           (cleaned src))).
  { rewrite <- (map_map observation observation_key).
    eapply sublist_NoDup; [exact Hifr|].
    by apply sublist_map, cleaned_observations_sublist. }
  assert (Hent : forall r1 r2, r1 ∈ cleaned src → r2 ∈ cleaned src →
            CleanedData.entity (to_csv r1) = CleanedData.entity (to_csv r2) →
            country_code (observation r1) = country_code (observation r2)
            ∧ industry_code (observation r1) = industry_code (observation r2)).
  { intros r1 r2 H1 H2 Heq.
    pose proof (cleaned_country_in_EU _ _ H1) as Hc1.
    pose proof (cleaned_country_in_EU _ _ H2) as Hc2.
    by apply entity_inj. }
  split; [done|]. split; [|done].
  unfold df_out. simpl. rewrite map_map.
  apply NoDup_fmap_1 with (f := fun k : string * Z => k).
  rewrite list_fmap_id.
  revert Hkeys. generalize Hent.
  generalize (cleaned src). intros l Hinj.
  induction l as [|r l IH]; simpl; [constructor|].
  rewrite !NoDup_cons. intros [Hnotin Hnd]. split.
  - intros Hin. apply Hnotin.
    apply list_elem_of_fmap in Hin as (r' & Hk & Hr').
    apply list_elem_of_fmap. exists r'. split; [|done].
    unfold CleanedData.index_key in Hk. simpl in Hk.
    injection Hk as He Hy.
    destruct (Hinj r r') as [Hc Hi];
      [by left | by right | exact He |].
    unfold observation_key. unfold observation in *. by rewrite Hc, Hi, Hy.
  - apply IH; [|done]. intros r1 r2 ? ?. apply Hinj; by right.
Qed.

Lemma cleaned_panel_index_unique_witness :
  NoDup (map CleanedData.index_key (CleanedData.rows (df_out Fixture.src)))
  /\ length (CleanedData.rows (df_out Fixture.src)) = 8%nat.
Proof.
  split; [|by vm_compute].
  apply (cleaned_panel_index_unique Fixture.src).
  - apply (bool_decide_unpack _). vm_compute. reflexivity.
  - apply (bool_decide_unpack _). vm_compute. reflexivity.
Defined.

End CleaningInvariants.

(** * Further properties of the loaders and the data check *)

Section LoaderInvariants.
Import Py DataCheck Cleaning.
Context {file frame : Type}.
Variable reader : file -> result frame.

(** X8. The two scripts treat an unreadable GDP file differently.  The data
    check never raises and falls back to the second file name whenever the
    first gave nothing, missing or unreadable.  The cleaning script chooses
    the name by existence alone: when the first file exists and the reader
    fails on it, [main] ends with the reader's exception although the second
    file is readable. *)
Theorem gdp_fallback_differs :
  forall (dir : data_dir file) (bad good : file) (msg : exn) (df : frame),
    dir !! "eurostata_gdp_nama_10_gdp.csv" = Some bad →
    dir !! "eurostat_gdp_nama_10_gdp.csv" = Some good →
    reader bad = inl msg → reader good = inr df →
    DataCheck.eurostat_gdp reader dir = inr (Some df)
    ∧ load_csv reader dir (gdp_path dir) = inl msg
    ∧ (forall frames, main_loads reader dir ≠ inr frames).
Proof.
  intros dir bad good msg df Hbad Hgood Hrb Hrg.
  assert (Hpath : gdp_path dir = "eurostata_gdp_nama_10_gdp.csv").
  { unfold gdp_path. rewrite Hbad. by rewrite decide_True by eauto. }
  assert (Hload : load_csv reader dir (gdp_path dir) = inl msg).
  { rewrite Hpath. unfold load_csv. by rewrite Hbad. }
  split; [|split; [done|]].
  - unfold DataCheck.eurostat_gdp, load_safe. by rewrite Hbad, Hrb, Hgood, Hrg.
  - intros frames. unfold main_loads.
    destruct (load_csv reader dir "IFR_karol.csv"); [done|].
    destruct (load_csv reader dir "klems_growth_accounts_basic.csv"); [done|].
    destruct (load_csv reader dir "ictwss_institutions.csv"); [done|].
    by rewrite Hload.
Qed.

Lemma eurostat_gdp_returns (dir : data_dir file) :
  exists r, DataCheck.eurostat_gdp reader dir = inr r.
Proof.
  unfold DataCheck.eurostat_gdp, load_safe.
  destruct (dir !! "eurostata_gdp_nama_10_gdp.csv") as [f|];
    [destruct (reader f)|];
    destruct (dir !! "eurostat_gdp_nama_10_gdp.csv") as [g|];
    try destruct (reader g); eauto.
Qed.

End LoaderInvariants.

Section LoaderWitnesses.
Import Py DataCheck Cleaning.

Lemma gdp_fallback_differs_witness :
  let reader := fun f : string =>
                  if decide (f = "garbled") then inl (ReaderError "no columns")
                  else inr f in
  let dir := <["eurostata_gdp_nama_10_gdp.csv" := "garbled"]> dir_without_une in
  DataCheck.eurostat_gdp reader dir = inr (Some "gdp")
  /\ load_csv reader dir (gdp_path dir) = inl (ReaderError "no columns").
Proof.
  intros reader dir.
  destruct (gdp_fallback_differs reader dir "garbled" "gdp"
              (ReaderError "no columns") "gdp") as (H1 & H2 & _).
  - vm_compute. reflexivity.
  - vm_compute. reflexivity.
  - vm_compute. reflexivity.
  - vm_compute. reflexivity.
  - split; [exact H1 | exact H2].
Defined.

End LoaderWitnesses.

Section CheckYearsFacts.
Import Py DataCheck.

Lemma elem_of_TARGET_YEARS y : y ∈ TARGET_YEARS ↔ (1995 <= y <= 2019)%Z.
Proof. unfold TARGET_YEARS. rewrite elem_of_seqZ. lia. Qed.

Lemma elem_of_missing_years years y :
  y ∈ missing_years years ↔ (1995 <= y <= 2019)%Z ∧ y ∉ years.
Proof.
  unfold missing_years. rewrite list_elem_of_filter, elem_of_TARGET_YEARS. tauto.
Qed.

Lemma missing_years_sorted years : StronglySorted Z.lt (missing_years years).
Proof.
  unfold missing_years, TARGET_YEARS.
  assert (Hs : forall n m, StronglySorted Z.lt (seqZ m (Z.of_nat n))).
  { intros n. induction n as [|n IH]; intros m; [constructor|].
    rewrite Nat2Z.inj_succ, seqZ_cons by lia.
    replace (Z.pred (Z.succ (Z.of_nat n))) with (Z.of_nat n) by lia.
    constructor; [apply IH|]. apply Forall_forall.
    intros y Hy%elem_of_seqZ. lia. }
  assert (Hf : forall l : list Z,
             StronglySorted Z.lt l →
             StronglySorted Z.lt (filter (fun y => y ∉ years) l)).
  { induction 1 as [|x l Hl IH Hall]; [constructor|].
    rewrite filter_cons. case_decide; [|done]. constructor; [done|].
    apply Forall_forall. intros y [_ Hy]%list_elem_of_filter.
    rewrite Forall_forall in Hall. eauto. }
  apply Hf, (Hs 25%nat).
Qed.

Lemma elem_of_valid (s : list cell) q : q ∈ valid s ↔ Num q ∈ s.
Proof.
  induction s as [|[|x|b] s IH]; simpl.
  - by rewrite !elem_of_nil.
  - rewrite elem_of_cons, IH. split; [by right | by intros [?|?]].
  - rewrite !elem_of_cons, IH. split.
    + intros [->|?]; [by left | by right].
    + intros [[= ->]|?]; [by left | by right].
  - rewrite elem_of_cons, IH. split; [by right | by intros [?|?]].
Qed.

Lemma existsb_infinite (s : list cell) :
  existsb infinite s = true ↔ ∃ b, Inf b ∈ s.
Proof.
  rewrite existsb_exists. split.
  - intros ([| |b] & Hin%list_elem_of_In & Hc); try done. eauto.
  - intros (b & Hin%list_elem_of_In). eauto.
Qed.

Lemma Qleast_le x l q : q ∈ x :: l → (Qleast x l <= q)%Q.
Proof.
  induction l as [|a l IH]; simpl.
  - intros ->%list_elem_of_singleton. apply Qle_refl.
  - intros Hq. destruct (Qle_bool a (Qleast x l)) eqn:Hle.
    + apply Qle_bool_iff in Hle.
      apply elem_of_cons in Hq as [->|[->|Hq]%elem_of_cons].
      * eapply Qle_trans; [exact Hle|]. apply IH. by left.
      * apply Qle_refl.
      * eapply Qle_trans; [exact Hle|]. apply IH. by right.
    + assert (Qleast x l <= a)%Q.
      { destruct (Qlt_le_dec (Qleast x l) a) as [?|Hge]; [by apply Qlt_le_weak|].
        apply Qle_bool_iff in Hge. congruence. }
      apply elem_of_cons in Hq as [->|[->|Hq]%elem_of_cons].
      * apply IH. by left.
      * done.
      * apply IH. by right.
Qed.

Lemma Qgreatest_ge x l q : q ∈ x :: l → (q <= Qgreatest x l)%Q.
Proof.
  induction l as [|a l IH]; simpl.
  - intros ->%list_elem_of_singleton. apply Qle_refl.
  - intros Hq. destruct (Qle_bool a (Qgreatest x l)) eqn:Hle.
    + apply Qle_bool_iff in Hle.
      apply elem_of_cons in Hq as [->|[->|Hq]%elem_of_cons].
      * apply IH. by left.
      * done.
      * apply IH. by right.
    + assert (Qgreatest x l <= a)%Q.
      { destruct (Qlt_le_dec (Qgreatest x l) a) as [?|Hge]; [by apply Qlt_le_weak|].
        apply Qle_bool_iff in Hge. congruence. }
      apply elem_of_cons in Hq as [->|[->|Hq]%elem_of_cons].
      * eapply Qle_trans; [|exact H]. apply IH. by left.
      * apply Qle_refl.
      * eapply Qle_trans; [|exact H]. apply IH. by right.
Qed.

(** The integer part of a number below one of integer part [y > 0] is at
    most [y], and that of a number above it is at least [y]. *)
Lemma astype_int_bounds (q : Q) (y : Z) :
  astype_int q = y → (0 < y)%Z →
  (y * Z.pos (Qden q) <= Qnum q < (y + 1) * Z.pos (Qden q))%Z.
Proof.
  unfold astype_int. destruct q as [n d]. simpl. intros Hq Hy.
  assert (0 <= n)%Z as Hn.
  { destruct (Z.le_gt_cases 0 n) as [|Hneg]; [done|].
    pose proof (Z.quot_opp_l (- n) (Z.pos d) ltac:(lia)) as Ho.
    rewrite Z.opp_involutive in Ho.
    pose proof (Z.quot_pos (- n) (Z.pos d) ltac:(lia) ltac:(lia)). lia. }
  rewrite Z.quot_div_nonneg in Hq by lia. subst y.
  pose proof (Z.mul_div_le n (Z.pos d) ltac:(lia)).
  pose proof (Z.mul_succ_div_gt n (Z.pos d) ltac:(lia)). lia.
Qed.

Lemma astype_int_below (q m : Q) (y : Z) :
  astype_int q = y → (0 < y)%Z → (m <= q)%Q → (astype_int m <= y)%Z.
Proof.
  intros Hq Hy Hle. pose proof (astype_int_bounds q y Hq Hy) as [_ Hup].
  unfold astype_int, Qle in *. destruct q as [n d], m as [n' d']. simpl in *.
  assert (n' < (y + 1) * Z.pos d')%Z as Hlt by nia.
  destruct (Z.le_gt_cases 0 n') as [Hpos|Hneg].
  - rewrite Z.quot_div_nonneg by lia.
    apply Z.lt_succ_r, Z.div_lt_upper_bound; lia.
  - pose proof (Z.quot_opp_l (- n') (Z.pos d') ltac:(lia)) as Ho.
    rewrite Z.opp_involutive in Ho.
    pose proof (Z.quot_pos (- n') (Z.pos d') ltac:(lia) ltac:(lia)). lia.
Qed.

Lemma astype_int_above (q m : Q) (y : Z) :
  astype_int q = y → (0 < y)%Z → (q <= m)%Q → (y <= astype_int m)%Z.
Proof.
  intros Hq Hy Hle. pose proof (astype_int_bounds q y Hq Hy) as [Hlo _].
  unfold astype_int, Qle in *. destruct q as [n d], m as [n' d']. simpl in *.
  assert (y * Z.pos d' <= n')%Z as Hge by nia.
  rewrite Z.quot_div_nonneg by nia.
  apply Z.div_le_lower_bound; lia.
Qed.

(** X9. [check_years] on a numeric year column.  It raises exactly when the
    column holds an infinite value.  Otherwise it returns True exactly when
    every year from 1995 to 2019 is the integer part of a number of the
    column (missing cells are skipped), and then it logs a first year of at
    most 1995 and a last year of at least 2019; it returns False with a
    warning that names the first five of the missing years, which are the
    target years that do not occur, in ascending order. *)
Theorem check_years_iff_all_target_years :
  forall year_col : list cell,
    let occurs := fun y : Z => ∃ q, Num q ∈ year_col ∧ astype_int q = y in
    ((∃ e, check_years year_col = inl e) ↔ ∃ b, Inf b ∈ year_col)
    /\ (existsb infinite year_col = false →
        ∃ ok rep,
          check_years year_col = inr (ok, rep)
          ∧ (ok = true ↔ forall y, (1995 <= y <= 2019)%Z → occurs y)
          ∧ match rep with
            | Confirmed first last =>
                ok = true ∧ (first <= 1995)%Z ∧ (2019 <= last)%Z
            | Warned years more =>
                ok = false
                ∧ ∃ missing,
                    years = take 5 missing
                    ∧ more = (5 <? length missing)%nat
                    ∧ missing ≠ []
                    ∧ StronglySorted Z.lt missing
                    ∧ forall y, y ∈ missing
                                ↔ (1995 <= y <= 2019)%Z ∧ ¬ occurs y
            end).
Proof.
  intros col occurs.
  assert (Hocc : forall y, y ∈ map astype_int (valid col) ↔ occurs y).
  { intros y. rewrite list_elem_of_fmap. unfold occurs.
    split; intros (q & H1 & H2); exists q; [apply elem_of_valid in H2|
      apply elem_of_valid in H1]; done. }
  assert (Hall : missing_years (map astype_int (valid col)) = [] ↔
                 forall y, (1995 <= y <= 2019)%Z → occurs y).
  { split.
    - intros Hm y Hy. apply Hocc.
      destruct (decide (y ∈ map astype_int (valid col))) as [|Hn]; [done|].
      assert (y ∈ missing_years (map astype_int (valid col))) as Hin
        by by apply elem_of_missing_years.
      rewrite Hm in Hin. by apply elem_of_nil in Hin.
    - intros Hy. destruct (missing_years _) as [|y0 ms] eqn:Hm; [done|].
      assert (y0 ∈ missing_years (map astype_int (valid col))) as Hin
        by (rewrite Hm; by left).
      apply elem_of_missing_years in Hin as [Ht Hn].
      destruct Hn. by apply Hocc, Hy. }
  assert (Hret : existsb infinite col = false →
            ∃ ok rep,
              check_years col = inr (ok, rep)
              ∧ (ok = true ↔ forall y, (1995 <= y <= 2019)%Z → occurs y)
              ∧ match rep with
                | Confirmed first last =>
                    ok = true ∧ (first <= 1995)%Z ∧ (2019 <= last)%Z
                | Warned years more =>
                    ok = false
                    ∧ ∃ missing,
                        years = take 5 missing
                        ∧ more = (5 <? length missing)%nat
                        ∧ missing ≠ []
                        ∧ StronglySorted Z.lt missing
                        ∧ forall y, y ∈ missing
                                    ↔ (1995 <= y <= 2019)%Z ∧ ¬ occurs y
                end).
  { intros Hfin. unfold check_years, years_present. rewrite Hfin.
    destruct (missing_years (map astype_int (valid col))) as [|y0 ms] eqn:Hm.
    - pose proof (proj1 Hall eq_refl) as Hy.
      destruct (Hy 1995%Z ltac:(lia)) as (q1 & Hq1%elem_of_valid & H1).
      destruct (Hy 2019%Z ltac:(lia)) as (q2 & Hq2%elem_of_valid & H2).
      destruct (valid col) as [|x l] eqn:Hv; [by apply elem_of_nil in Hq1|].
      eexists. eexists. split; [done|]. split; [done|].
      split; [done|]. split.
      + apply (astype_int_below q1); [done | lia | by apply Qleast_le].
      + apply (astype_int_above q2); [done | lia | by apply Qgreatest_ge].
    - eexists. eexists. split; [done|]. split.
      { split; [done|]. intros Hy%Hall. done. }
      split; [done|]. exists (y0 :: ms). split; [done|]. split; [done|].
      split; [done|]. rewrite <- Hm. split; [apply missing_years_sorted|].
      intros y. rewrite elem_of_missing_years, Hocc. done. }
  split; [|exact Hret].
  rewrite <- existsb_infinite. split.
  - intros [e He]. destruct (existsb infinite col) eqn:Hfin; [done|].
    destruct (Hret eq_refl) as (ok & rep & Hr & _). congruence.
  - intros Hinf. unfold check_years, years_present. rewrite Hinf. eauto.
Qed.

(** X9 on a column with every year from 1995 to 2019, an empty cell and
    the year 2019.5: True, with the range 1995 to 2019; and on a column
    without the years after 2012: False, the warning names 2013 to 2017 and
    tells that there are more. *)
Lemma check_years_iff_all_target_years_witness :
  (exists ok rep,
      check_years (NaN :: Num 2019.5
                   :: map (fun y => Num (inject_Z y)) (seqZ 1995 25))
      = inr (ok, rep)
      /\ ok = true /\ rep = Confirmed 1995 2019)
  /\ (exists ok rep,
         check_years (map (fun y => Num (inject_Z y)) (seqZ 1990 23))
         = inr (ok, rep)
         /\ ok = false
         /\ rep = Warned [2013; 2014; 2015; 2016; 2017]%Z true).
Proof.
  split.
  - destruct (proj2 (check_years_iff_all_target_years
                       (NaN :: Num 2019.5
                        :: map (fun y => Num (inject_Z y)) (seqZ 1995 25))))
      as (ok & rep & Hr & _); [vm_compute; reflexivity|].
    exists ok, rep. split; [exact Hr|].
    vm_compute in Hr. by injection Hr as <- <-.
  - destruct (proj2 (check_years_iff_all_target_years
                       (map (fun y => Num (inject_Z y)) (seqZ 1990 23))))
      as (ok & rep & Hr & _); [vm_compute; reflexivity|].
    exists ok, rep. split; [exact Hr|].
    vm_compute in Hr. by injection Hr as <- <-.
Defined.

End CheckYearsFacts.

Section ShiftShareInvariants.
Import ShiftShare.

Lemma contains_hyphen_at_third a b rest :
  contains_hyphen (String a (String b (String hyphen rest))) = true.
Proof. simpl. repeat case_decide; done. Qed.

Lemma is_upper_spec a :
  is_upper a = true
  ↔ (65 ≤ Ascii.nat_of_ascii a)%nat ∧ (Ascii.nat_of_ascii a ≤ 90)%nat.
Proof.
  unfold is_upper. by rewrite andb_true_iff, !Nat.leb_le.
Qed.

Lemma contains_hyphen_spec label :
  contains_hyphen label = true
  ↔ ∃ s t, label = s +:+ String hyphen t.
Proof.
  induction label as [|a label IH]; simpl.
  - split; [done|]. by intros ([|? ?] & t & ?).
  - case_decide as Ha.
    + split; [|done]. intros _. exists "", label. by rewrite Ha.
    + rewrite IH. split.
      * intros (s & t & ->). by exists (String a s), t.
      * intros ([|a' s] & t & Heq); simpl in Heq.
        -- by injection Heq as -> _.
        -- injection Heq as -> ->. eauto.
Qed.

(** X10. Country labels of the IFR sheet: a label that starts with two of
    the capitals A to Z and a hyphen, such as ZA-South Africa, gives the two
    capitals as country; any other label is its own country, so se-sweden
    and Asia-Pacific stay as they are.  A row is kept exactly when its label
    contains a hyphen: the test on the ISO2 prefix adds nothing, and a label
    without a hyphen is dropped. *)
Theorem label_country_and_filter :
  let capital := fun a : Ascii.ascii =>
    (65 ≤ Ascii.nat_of_ascii a)%nat ∧ (Ascii.nat_of_ascii a ≤ 90)%nat in
  (forall label s,
      iso2_of_label label = Some s
      ↔ ∃ a b rest, label = String a (String b (String hyphen rest))
                    ∧ capital a ∧ capital b ∧ s = String a (String b ""))
  /\ (forall a b rest,
         capital a → capital b →
         country_of_label (String a (String b (String hyphen rest)))
         = String a (String b ""))
  /\ (forall label,
         ¬ (∃ a b rest, label = String a (String b (String hyphen rest))
                        ∧ capital a ∧ capital b) →
         country_of_label label = label)
  /\ (forall label,
         keeps_label label = true ↔ ∃ s t, label = s +:+ String hyphen t)
  /\ country_of_label "ZA-South Africa" = "ZA"
  /\ country_of_label "Asia-Pacific" = "Asia-Pacific"
  /\ country_of_label "se-sweden" = "se-sweden"
  /\ country_of_label "Se-Sweden" = "Se-Sweden"
  /\ country_of_label "S1-Sweden" = "S1-Sweden"
  /\ country_of_label "@A-x" = "@A-x"
  /\ country_of_label "A[-x" = "A[-x"
  /\ country_of_label "AZ-x" = "AZ"
  /\ country_of_label "SE" = "SE"
  /\ keeps_label "se-sweden" = true
  /\ keeps_label "Asia-Pacific" = true
  /\ keeps_label "World" = false
  /\ keeps_label "SE" = false.
Proof.
  intros capital.
  assert (Hiso : forall label s,
      iso2_of_label label = Some s
      ↔ ∃ a b rest, label = String a (String b (String hyphen rest))
                    ∧ capital a ∧ capital b ∧ s = String a (String b "")).
  { intros label s. unfold iso2_of_label, capital. split.
    - destruct label as [|a [|b [|c rest]]]; try done.
      destruct (is_upper a) eqn:Ha; [|done].
      destruct (is_upper b) eqn:Hb; [|done].
      case_bool_decide as Hc; [|done]. simpl. intros [= <-]. subst c.
      exists a, b, rest. by rewrite <- !is_upper_spec.
    - intros (a & b & rest & -> & Ha%is_upper_spec & Hb%is_upper_spec & ->).
      rewrite Ha, Hb. by rewrite bool_decide_true by done. }
  split; [exact Hiso|].
  split; [|split; [|split; [|by vm_compute]]].
  - intros a b rest Ha Hb. unfold country_of_label.
    assert (iso2_of_label (String a (String b (String hyphen rest)))
            = Some (String a (String b ""))) as ->; [|done].
    apply Hiso. by exists a, b, rest.
  - intros label Hno. unfold country_of_label.
    destruct (iso2_of_label label) as [s|] eqn:Hs; [|done].
    apply Hiso in Hs as (a & b & rest & -> & Ha & Hb & _).
    destruct Hno. by exists a, b, rest.
  - intros label. rewrite <- contains_hyphen_spec. unfold keeps_label.
    destruct (iso2_of_label label) as [c|] eqn:Hs.
    + rewrite bool_decide_true by eauto. simpl.
      apply Hiso in Hs as (a & b & rest & -> & _).
      by rewrite contains_hyphen_at_third.
    + rewrite bool_decide_false by (by intros [? ?]). done.
Qed.

Lemma label_country_and_filter_witness :
  country_of_label "SE-Sweden" = "SE"
  /\ country_of_label "se-Sweden" = "se-Sweden".
Proof.
  split.
  - apply (proj1 (proj2 label_country_and_filter)); vm_compute; lia.
  - apply (proj1 (proj2 (proj2 label_country_and_filter))).
    intros (a & b & rest & Heq & Ha & _). injection Heq as <- _.
    vm_compute in Ha. lia.
Defined.

Lemma NoDup_merge_cross {A B} (l : list A) (r : list B) :
  NoDup l → NoDup r → NoDup (Frame.merge_cross l r).
Proof.
  intros Hl Hr. unfold Frame.merge_cross.
  induction Hl as [|a l Ha Hl IH]; simpl; [constructor|].
  apply NoDup_app. split; [|split; [|done]].
  - apply NoDup_fmap_2; [|done]. by intros x y [= ->].
  - intros [a' b] (b' & [= -> ->] & _)%list_elem_of_fmap Hin.
    apply elem_of_merge_cross in Hin as [Hin _]. done.
Qed.

Lemma with_exposure_inj : Inj (=) (=) with_exposure.
Proof.
  intros [a b] [a' b'] H. unfold with_exposure in H. simpl in H.
  by injection H as -> -> _.
Qed.

(** X11. In the shift-share panel every (country, year) row meets every
    industry exactly once: when the exposure rows are distinct (line 85
    drops duplicates) and the weight rows are distinct, no row of the panel
    occurs twice. *)
Theorem panel_rows_distinct :
  forall (ifr_long : list ifr_long_row) (weights : list weight_row),
    NoDup ifr_long → NoDup weights → NoDup (panel ifr_long weights).
Proof.
  intros ifr_long weights Hi Hw. unfold panel.
  pose proof with_exposure_inj as Hinj.
  by apply (NoDup_fmap_2 with_exposure), NoDup_merge_cross.
Qed.

Lemma panel_rows_distinct_witness :
  NoDup (panel fixture_ifr_long fixture_weights).
Proof.
  apply panel_rows_distinct.
  - apply (NoDup_fmap_1 (fun r => (country r, year r))).
    apply (bool_decide_unpack _). vm_compute. reflexivity.
  - apply (NoDup_fmap_1 industry_id).
    apply (bool_decide_unpack _). vm_compute. reflexivity.
Defined.

End ShiftShareInvariants.

(** * Further properties of the equation scripts *)

Section PreparePanelFacts.
Import CleanedData EquationUtils.

Lemma drop_duplicates_from_keys seen (df : list row) :
  NoDup (map index_key (drop_duplicates_from seen df))
  ∧ (forall k, k ∈ map index_key (drop_duplicates_from seen df) → k ∉ seen).
Proof.
  revert seen. induction df as [|r df IH]; intros seen; simpl.
  - split; [constructor | by intros k ?%elem_of_nil].
  - case_decide as Hseen; [apply IH|].
    destruct (IH ((entity r, year_int r) :: seen)) as [Hnd Hfresh].
    simpl. split.
    + apply NoDup_cons. split; [|done].
      intros Hin. apply Hfresh in Hin. apply Hin. by left.
    + intros k [->|Hk]%elem_of_cons; [done|].
      apply Hfresh in Hk. intros ?. apply Hk. by right.
Qed.

Lemma drop_duplicates_from_complete seen (df : list row) r :
  r ∈ df →
  index_key r ∈ seen ∨ index_key r ∈ map index_key (drop_duplicates_from seen df).
Proof.
  revert seen. induction df as [|x df IH]; intros seen; [by intros ?%elem_of_nil|].
  intros [->|Hr]%elem_of_cons; simpl.
  - case_decide; [by left|]. right. simpl. by left.
  - case_decide as Hx; [by apply IH|].
    destruct (IH ((entity x, year_int x) :: seen) Hr) as [[->|Hs]%elem_of_cons|Hin].
    + right. simpl. by left.
    + by left.
    + right. simpl. by right.
Qed.

Lemma index_le_total : Total (fun a b : row => Is_true (index_le a b)).
Proof.
  intros a b. unfold index_le.
  destruct (decide (entity a = entity b)) as [He|He].
  - rewrite decide_True by done.
    destruct (Z.leb_spec (year_int a) (year_int b));
      destruct (Z.leb_spec (year_int b) (year_int a)); simpl; auto; lia.
  - rewrite decide_False by done.
    destruct (String.leb_total (entity a) (entity b)) as [->| ->]; simpl; auto.
Qed.

Lemma prepare_panel_required (df : list row) require r :
  r ∈ prepare_panel df require → require r = true.
Proof.
  unfold prepare_panel, drop_duplicates. rewrite merge_sort_Permutation.
  intros Hr%elem_of_drop_duplicates_from.
  by apply list_elem_of_filter in Hr as [? _].
Qed.

(** X12. [prepare_panel] gives a frame with a unique index: no two rows
    have the same (entity, year_int), the rows are in index order, every row
    is a row of the input with the required columns present, and every
    (entity, year_int) of such an input row is kept. *)
Theorem prepare_panel_unique_index :
  forall (df : list row) (require : row -> bool),
    NoDup (map index_key (prepare_panel df require))
    /\ Sorted (fun a b => Is_true (index_le a b)) (prepare_panel df require)
    /\ (forall r, r ∈ prepare_panel df require → r ∈ df ∧ require r = true)
    /\ (forall r, r ∈ df → require r = true →
                  index_key r ∈ map index_key (prepare_panel df require)).
Proof.
  intros df require. unfold prepare_panel, drop_duplicates.
  pose proof index_le_total as Htotal.
  split; [|split; [|split]].
  - rewrite merge_sort_Permutation. apply drop_duplicates_from_keys.
  - apply Sorted_merge_sort. done.
  - intros r. rewrite merge_sort_Permutation.
    intros Hr%elem_of_drop_duplicates_from.
    apply list_elem_of_filter in Hr as [? ?]. done.
  - intros r Hr Hreq. rewrite merge_sort_Permutation.
    destruct (drop_duplicates_from_complete []
                (filter (fun r => require r = true) df) r) as [Hs|Hin];
      [by apply list_elem_of_filter | by apply elem_of_nil in Hs | done].
Qed.

End PreparePanelFacts.

Section ModelFrameFacts.
Import CleanedData EquationUtils Equation5.

Lemma elem_of_dropna_controls_all controls (df : list row) r :
  r ∈ fold_left (fun d c => filter (fun r => control_notna c r = true) d)
        controls df →
  Forall (fun c => control_notna c r = true) controls.
Proof.
  revert df. induction controls as [|c controls IH]; intros df; simpl.
  - constructor.
  - intros Hr. constructor; [|by eapply IH].
    apply elem_of_dropna_controls in Hr.
    by apply list_elem_of_filter in Hr as [? _].
Qed.

Lemma coverage_sample_rows df_raw r :
  r ∈ coverage_sample df_raw →
  r ∈ rows df_raw ∧ req r = true
  ∧ Forall (fun c => control_notna c r = true) (get_controls (rows df_raw)).
Proof.
  unfold coverage_sample, drop_duplicates.
  intros Hr%elem_of_drop_duplicates_from.
  pose proof (elem_of_dropna_controls_all _ _ _ Hr) as Hc.
  apply elem_of_dropna_controls in Hr.
  pose proof (prepare_panel_required _ _ _ Hr).
  by apply elem_of_prepare_panel in Hr.
Qed.

Lemma index_key_set_adjcov_centered v r :
  index_key (set_adjcov_centered v r) = index_key r.
Proof. done. Qed.

(** X13. The frame the industry regressions run on is complete and has a
    unique index: on every row the required columns (ln_hours,
    ln_robots_lag1, ln_va, ln_cap, adjcov), every control chosen by
    [get_controls] and adjcov_centered are present, and no two rows have the
    same (entity, year_int); this holds with the adjcov_centered column of
    the file and with the one computed by the fallback. *)
Theorem model_frame_complete :
  forall df_raw : frame,
    Forall (fun r =>
              req r = true
              ∧ Forall (fun c => control_notna c r = true)
                  (get_controls (rows df_raw))
              ∧ notna (adjcov_centered r) = true)
      (model_frame df_raw)
    /\ NoDup (map index_key (model_frame df_raw)).
Proof.
  intros df_raw. unfold model_frame.
  assert (Hnd : NoDup (map index_key (coverage_sample df_raw))).
  { unfold coverage_sample, drop_duplicates. apply drop_duplicates_from_keys. }
  destruct (has_adjcov_centered df_raw); split.
  - apply Forall_forall. intros r [Hc Hr]%list_elem_of_filter.
    apply coverage_sample_rows in Hr as (_ & ? & ?). done.
  - eapply sublist_NoDup; [exact Hnd|]. apply sublist_map, sublist_filter.
  - apply Forall_forall. intros r [Hc Hr]%list_elem_of_filter.
    apply list_elem_of_fmap in Hr as (x & -> & Hx).
    apply coverage_sample_rows in Hx as (_ & Hreq & Hctl).
    split; [exact Hreq|]. split; [|done].
    eapply Forall_impl; [exact Hctl|]. by intros [] ?.
  - eapply sublist_NoDup; [|apply sublist_map, sublist_filter].
    rewrite map_map.
    erewrite map_ext; [exact Hnd|]. intros r. apply index_key_set_adjcov_centered.
Qed.

End ModelFrameFacts.

Section StepModelInvariants.
Import CleanedData EquationUtils Equation5.
Variable fit : Type.
Variable run_panelols : list row -> string + fit.

Lemma skipped_or_tried (df : list row) inds :
  (length (omap (skip_of df) inds)
   + length (filter (fun ind => tried df ind = true) inds) = length inds)%nat.
Proof.
  induction inds as [|ind inds IH]; [done|].
  rewrite filter_cons.
  change (omap (skip_of df) (ind :: inds))
    with (match skip_of df ind with
          | Some y => y :: omap (skip_of df) inds
          | None => omap (skip_of df) inds
          end).
  destruct (gate (subgroup ind df)) as [why|] eqn:Hg.
  - assert (Ht : tried df ind = false) by (unfold tried; by rewrite Hg).
    rewrite decide_False by (by rewrite Ht).
    unfold skip_of at 1. rewrite Hg. simpl. lia.
  - assert (Ht : tried df ind = true) by (unfold tried; by rewrite Hg).
    rewrite decide_True by done.
    unfold skip_of at 1. rewrite Hg. simpl. lia.
Qed.

Lemma step_results_failed df inds acc :
  Forall (estimated_on fit run_panelols df) (results _ acc) →
  Forall (failed_on fit run_panelols df) (failed _ acc) →
  Forall (estimated_on fit run_panelols df)
    (results _ (fold_left (step fit run_panelols df) inds acc))
  ∧ Forall (failed_on fit run_panelols df)
      (failed _ (fold_left (step fit run_panelols df) inds acc)).
Proof.
  revert acc. induction inds as [|ind inds IH]; intros acc Hr Hf; [done|].
  simpl. apply IH; unfold step;
    destruct (gate (subgroup ind df)) as [why|] eqn:Hg; simpl; try done;
    destruct (run_panelols (subgroup ind df)) as [e|res] eqn:Hrun;
    simpl; try done.
  - apply Forall_app. split; [done|]. by repeat constructor.
  - apply Forall_app. split; [done|]. by repeat constructor.
Qed.

End StepModelInvariants.

Section StepModelPartition.
Import CleanedData EquationUtils Equation5.
Variable fit : Type.
Variable run_panelols : list row -> string + fit.

Lemma skipped_industries (df : list row) inds :
  map industry (omap (skip_of df) inds)
  = filter (fun ind => tried df ind ≠ true) inds.
Proof.
  induction inds as [|ind inds IH]; [done|].
  rewrite filter_cons.
  change (omap (skip_of df) (ind :: inds))
    with (match skip_of df ind with
          | Some y => y :: omap (skip_of df) inds
          | None => omap (skip_of df) inds
          end).
  destruct (gate (subgroup ind df)) as [why|] eqn:Hg.
  - assert (Ht : tried df ind = false) by (unfold tried; by rewrite Hg).
    rewrite decide_True by (by rewrite Ht).
    unfold skip_of at 1. rewrite Hg. simpl. by rewrite IH.
  - assert (Ht : tried df ind = true) by (unfold tried; by rewrite Hg).
    rewrite decide_False by (by intros []).
    unfold skip_of at 1. by rewrite Hg.
Qed.

Lemma filter_complement_perm {A} (P : A -> Prop) `{!forall x, Decision (P x)}
    (l : list A) :
  filter P l ++ filter (fun x => ¬ P x) l ≡ₚ l.
Proof.
  induction l as [|x l IH]; [done|]. rewrite !filter_cons.
  destruct (decide (P x)).
  - rewrite decide_False by tauto. simpl. by rewrite IH.
  - rewrite decide_True by done. rewrite <- Permutation_middle. by rewrite IH.
Qed.

Lemma NoDup_industries (df : list row) : NoDup (industries df).
Proof.
  unfold industries. rewrite merge_sort_Permutation. apply NoDup_remove_dups.
Qed.

Lemma elem_of_industries (df : list row) ind :
  ind ∈ industries df ↔ exists r, r ∈ df ∧ nace_r2_code r = ind.
Proof.
  unfold industries. rewrite merge_sort_Permutation, elem_of_remove_dups.
  rewrite list_elem_of_fmap. split.
  - intros (r & -> & ?). eauto.
  - intros (r & ? & <-). eauto.
Qed.

(** X14. The loop over the industries loses none and stops for none: the
    industries of the results, of the failed list and of the skipped list
    are together the industries of the frame, each once, so the three counts
    add up to the number of industries.  Every result comes from a subgroup
    with at least 5 countries and 50 rows on which the estimator returned;
    every failed entry from a subgroup that passed the checks and on which
    the estimator raised, with the text of the exception as reason. *)
Theorem step_model_partitions_industries :
  forall df_raw : frame,
    let df := model_frame df_raw in
    let out := step_model fit run_panelols df_raw in
    (map (fun e => e.1.1) (results _ out) ++ map industry (failed _ out)
       ++ map industry (skipped _ out) ≡ₚ industries df)%list
    /\ (length (results _ out) + length (failed _ out)
        + length (skipped _ out) = length (industries df))%nat
    /\ Forall (fun e =>
                 estimated_on fit run_panelols df e
                 ∧ (MIN_COUNTRIES ≤ e.1.2)%nat
                 ∧ (MIN_OBS ≤ length (subgroup e.1.1 df))%nat)
         (results _ out)
    /\ Forall (failed_on fit run_panelols df) (failed _ out).
Proof.
  intros df_raw df out.
  assert (Hperm : (map (fun e => e.1.1) (results _ out)
                   ++ map industry (failed _ out)
                   ++ map industry (skipped _ out) ≡ₚ industries df)%list).
  { unfold out, step_model. fold df. rewrite app_assoc.
    rewrite (step_tried fit run_panelols df (industries df)).
    rewrite step_skipped. simpl. rewrite skipped_industries.
    apply filter_complement_perm. }
  destruct (step_results_failed fit run_panelols df (industries df)
              {| results := []; skipped := []; failed := [] |})
    as [Hres Hfail]; [constructor | constructor |].
  split; [done|]. split; [|split].
  - apply Permutation_length in Hperm.
    rewrite !length_app, !length_map in Hperm. lia.
  - eapply Forall_impl; [exact Hres|]. intros e He. split; [done|].
    destruct He as (Hg & Hn & _). apply gate_None in Hg as (? & ? & _).
    rewrite Hn. done.
  - exact Hfail.
Qed.

End StepModelPartition.

Section EstimateFacts.
Import Equation5.

(** X15. The reported interaction is flagged consistently: it carries
    stars exactly when it is marked significant, which is when the p-value
    is below 0.10, and three stars exactly when it is below 0.01; it has
    neither when the p-value is missing.  With a coefficient that is a
    finite number and a standard error that is not negative, the confidence
    interval contains the coefficient. *)
Theorem stars_match_significance :
  forall e : estimate,
    (stars e ≠ "" ↔ significant e = true)
    /\ (significant e = true ↔ cell_lt (pval_interaction e) (Num 0.10))
    /\ (stars e = "***" ↔ cell_lt (pval_interaction e) (Num 0.01))
    /\ (pval_interaction e = NaN → stars e = "" ∧ significant e = false)
    /\ (forall b,
           beta_interaction e = Num b →
           cell_le (Num 0) (se_interaction e) →
           cell_le (ci_lower e) (Num b) ∧ cell_le (Num b) (ci_upper e)).
Proof.
  intros e. unfold stars, significant, ci_lower, ci_upper.
  split; [|split; [|split; [|split]]].
  - destruct (pval_interaction e) as [|p|[|]]; [done| |done|done].
    destruct (Qlt_le_dec p 0.01) as [H1|H1];
      destruct (Qlt_le_dec p 0.05) as [H2|H2];
      destruct (Qlt_le_dec p 0.10) as [H3|H3]; try done; lra.
  - destruct (pval_interaction e) as [|p|[|]]; simpl; [done| |done|done].
    destruct (Qlt_le_dec p 0.10) as [H3|H3]; split; try done.
    intros Hlt. by apply Qlt_not_le in Hlt.
  - destruct (pval_interaction e) as [|p|[|]]; simpl; [done| |done|done].
    destruct (Qlt_le_dec p 0.01) as [H1|H1]; [done|].
    split.
    + destruct (Qlt_le_dec p 0.05); [done|].
      by destruct (Qlt_le_dec p 0.10).
    + intros Hlt. by apply Qlt_not_le in Hlt.
  - by intros ->.
  - intros b -> Hse.
    destruct (se_interaction e) as [|se|[|]]; simpl in *; try done.
    split; lra.
Qed.

Lemma stars_match_significance_witness :
  let e := {| beta_robot := Num (-0.02); beta_interaction := Num 0.5;
              se_interaction := Num 0.25; pval_interaction := Num 0.045 |} in
  stars e = "**" /\ significant e = true
  /\ cell_le (ci_lower e) (Num 0.5) /\ cell_le (Num 0.5) (ci_upper e)
  /\ cell_equiv (ci_lower e) (Num 0.01) /\ cell_equiv (ci_upper e) (Num 0.99).
Proof.
  intros e. split; [by vm_compute|]. split; [by vm_compute|].
  rewrite assoc by apply _. split; [|by vm_compute].
  apply (proj2 (proj2 (proj2 (proj2 (stars_match_significance e))))).
  - done.
  - vm_compute. discriminate.
Defined.

End EstimateFacts.

Section VarianceFacts.
Import CleanedData Equation5 DataCheckUsability.

Lemma Qsum_map_equiv {A} (f g : A -> Q) (l : list A) :
  (forall x, f x == g x)%Q → (Qsum (map f l) == Qsum (map g l))%Q.
Proof.
  intros Hfg. induction l as [|x l IH]; simpl; [reflexivity|].
  by rewrite Hfg, IH.
Qed.

Lemma Qlen_map {A} (f : A -> Q) (l : list A) : Qlen (map f l) = inject_Z (Z.of_nat (length l)).
Proof. unfold Qlen. by rewrite length_map. Qed.

Lemma Qlen_positive {A} (x : A) l : (0 < Qlen (x :: l))%Q.
Proof.
  rewrite Qlen_cons. pose proof (Qlen_nonneg l). lra.
Qed.

(** The squared deviations from the mean do not change when a constant is
    subtracted from every value. *)
Lemma squared_deviations_shift c xs :
  (0 < Qlen xs)%Q →
  let m := (Qsum xs / Qlen xs)%Q in
  let ys := map (fun v => v - c)%Q xs in
  let m' := (Qsum ys / Qlen ys)%Q in
  (Qsum (map (fun v => (v - m') * (v - m')) ys)
   == Qsum (map (fun v => (v - m) * (v - m)) xs))%Q.
Proof.
  intros Hpos m ys m'.
  assert (Hm : (m' == m - c)%Q).
  { unfold m', m, ys. rewrite Qsum_shift.
    replace (Qlen (map (fun v => v - c) xs))%Q with (Qlen xs)
      by (unfold Qlen; by rewrite length_map).
    field. intros Hz. rewrite Hz in Hpos. by apply Qlt_irrefl in Hpos. }
  unfold ys. rewrite map_map. apply Qsum_map_equiv. intros v.
  rewrite Hm. ring.
Qed.

Lemma std_squared_Num x y l :
  std_squared (map Num (x :: y :: l))
  = let v := x :: y :: l in
    Some (Qsum (map (fun a => (a - Qsum v / Qlen v) * (a - Qsum v / Qlen v)) v)
          / (Qlen v - 1))%Q.
Proof. unfold std_squared. by rewrite infinite_Num, valid_Num. Qed.

Lemma columns_of_centered c (sub : list row) :
  Forall (fun r => exists x, adjcov r = Num x
                             ∧ adjcov_centered r = Num (x - c)) sub →
  exists xs, length xs = length sub
             ∧ map adjcov sub = map Num xs
             ∧ map adjcov_centered sub = map Num (map (fun v => v - c)%Q xs).
Proof.
  induction 1 as [|r sub (x & Hx & Hc) _ (xs & Hlen & Ha & Hcs)].
  - by exists [].
  - exists (x :: xs). simpl. by rewrite Hlen, Hx, Hc, Ha, Hcs.
Qed.

(** X16. The usability forecast of the data check and the gate of
    equation 5 agree on a subgroup: for rows that all carry adjcov, with
    adjcov_centered equal to adjcov minus one constant, the data check calls
    the industry usable exactly when the gate lets it through to estimation
    (at least 5 countries, at least 50 rows, standard deviation of the
    moderator at least 1e-10; centering does not change the deviation). *)
Theorem usable_eq5_agrees_with_gate :
  forall (c : Q) (sub : list row),
    Forall (fun r => exists x, adjcov r = Num x
                               ∧ adjcov_centered r = Num (x - c)) sub →
    (usable_eq5_test sub = true ↔ gate sub = None).
Proof.
  intros c sub Hrows. rewrite gate_None. unfold usable_eq5_test.
  rewrite !andb_true_iff, !Nat.leb_le.
  destruct (columns_of_centered c sub Hrows) as (xs & Hlen & Ha & Hc).
  unfold var_cov, std_not_below. rewrite Ha, Hc.
  destruct xs as [|x [|y l]].
  - simpl in Hlen. unfold MIN_OBS. split; intros ((_ & ?) & _) || intros (_ & ? & _); lia.
  - simpl in Hlen. unfold MIN_OBS. split; intros ((_ & ?) & _) || intros (_ & ? & _); lia.
  - change (map Num (map (fun v => v - c)%Q (x :: y :: l)))
      with (map Num ((x - c)%Q :: (y - c)%Q :: map (fun v => v - c)%Q l)).
    rewrite !std_squared_Num. cbv zeta.
    change ((x - c)%Q :: (y - c)%Q :: map (fun v => v - c)%Q l)
      with (map (fun v => v - c)%Q (x :: y :: l)).
    pose proof (squared_deviations_shift c (x :: y :: l)
                  (Qlen_positive x (y :: l))) as Hs.
    cbv zeta in Hs. rewrite Qle_bool_iff.
    assert (Hn : Qlen (map (fun v => v - c)%Q (x :: y :: l)) = Qlen (x :: y :: l))
      by (unfold Qlen; by rewrite length_map).
    rewrite Hs, Hn. tauto.
Qed.

Lemma usable_eq5_agrees_with_gate_witness :
  let sub := map (fun r => set_adjcov_centered (cell_sub (adjcov r) (Num 30)) r)
               five_countries in
  usable_eq5_test sub = true /\ gate sub = None.
Proof.
  intros sub.
  assert (H : usable_eq5_test sub = true ↔ gate sub = None).
  { apply (usable_eq5_agrees_with_gate 30).
    unfold sub, five_countries, synthetic. rewrite map_map.
    apply Forall_fmap, Forall_forall. intros i _. simpl. eauto. }
  split; [by vm_compute|]. apply H. by vm_compute.
Defined.

End VarianceFacts.

(** * Where the country-level columns of a panel row come from *)

Section LookupFacts.
Import Frame.

Lemma head_matching_keyed {K B} `{EqDecision K} (right_on : B -> K)
    (mk : K -> B) (ks : list K) (k0 : K) :
  (forall k, right_on (mk k) = k) →
  head (filter (fun b => right_on b = k0) (map mk ks))
  = if decide (k0 ∈ ks) then Some (mk k0) else None.
Proof.
  intros Hmk. induction ks as [|k ks IH]; [done|].
  cbn [map]. rewrite filter_cons, Hmk.
  destruct (decide (k = k0)) as [->|Hne].
  - by rewrite decide_True by by left.
  - rewrite IH. destruct (decide (k0 ∈ ks)) as [Hin|Hnin].
    + by rewrite decide_True by by right.
    + rewrite decide_False; [done|].
      intros [?|?]%elem_of_cons; [congruence | done].
Qed.

Lemma elem_of_merge_left_lookup {A B K} `{EqDecision K} (left_on : A -> K)
    (right_on : B -> K) (left : list A) (right : list B) p :
  NoDup (map right_on right) →
  p ∈ merge_left left_on right_on left right →
  p.2 = head (matching left_on right_on p.1 right).
Proof.
  intros Hnd. rewrite merge_left_unique by done.
  by intros (a & -> & _)%list_elem_of_fmap.
Qed.

Lemma group_nil {A K} `{EqDecision K} (key : A -> K) (k : K) (rows : list A) :
  k ∉ map key rows → group key k rows = [].
Proof. intros Hk. by apply (matching_nil_iff (fun k : K => k) key k rows). Qed.

Lemma filter_omap_tagged {A K V} (key : A -> option K) (val : A -> V)
    (f : A -> option (K * V)) (Q : K * V -> Prop) (P : A -> Prop)
    `{!forall p, Decision (Q p), !forall a, Decision (P a)} (l : list A) :
  (forall a, f a = (k ← key a; Some (k, val a))) →
  (forall a, P a ↔ exists k, key a = Some k ∧ Q (k, val a)) →
  map snd (filter Q (omap f l)) = map val (filter P l).
Proof.
  intros Hf HP. induction l as [|a l IH]; [done|].
  rewrite filter_cons.
  change (omap f (a :: l))
    with (match f a with Some y => y :: omap f l | None => omap f l end).
  rewrite Hf. destruct (key a) as [k|] eqn:Hk; simpl.
  - rewrite filter_cons. destruct (decide (Q (k, val a))) as [HQ|HQ].
    + rewrite decide_True by (apply HP; eauto). simpl. by rewrite IH.
    + rewrite decide_False; [done|].
      intros HPa. apply HP in HPa as (k' & Hk' & ?).
      rewrite Hk in Hk'. by injection Hk' as <-.
  - rewrite decide_False; [done|].
    intros HPa. apply HP in HPa as (k' & Hk' & _). congruence.
Qed.

End LookupFacts.

Section ColumnOrigins.
Import Cleaning.

Lemma dropna_idemp (s : list cell) : dropna (dropna s) = dropna s.
Proof.
  unfold dropna. induction s as [|c s IH]; [done|].
  rewrite filter_cons. case_decide as Hc; [|done].
  rewrite filter_cons, decide_True by done. by rewrite IH.
Qed.

Lemma safe_mean_is_mean s : _safe_mean s = cell_mean s.
Proof.
  unfold _safe_mean. fold (dropna s).
  destruct (existsb notna s) eqn:He.
  - unfold cell_mean. by rewrite dropna_idemp.
  - unfold cell_mean. assert (dropna s = []) as ->; [|done].
    unfold dropna. induction s as [|c s IH]; [done|].
    simpl in He. apply orb_false_elim in He as [Hc Hs].
    rewrite filter_cons, decide_False by congruence. by apply IH.
Qed.

(** The ICTWSS rows of a country in the baseline window. *)
Lemma baseline_group ictwss c :
  map snd (Frame.group fst c (base_years ictwss))
  = filter (fun r => ictwss_country (iso3 r) = Some c
                     ∧ (1990 <= i_year r <= 1995)%Z) ictwss.
Proof.
  unfold Frame.group, base_years. rewrite list_filter_filter.
  rewrite <- (map_id (filter (fun r => _ ∧ _) ictwss)).
  apply (filter_omap_tagged (fun r => ictwss_country (iso3 r)) (fun r => r)).
  - done.
  - intros r. split.
    + intros [Hc Hy]. exists c. done.
    + intros (k & Hk & Hfst & Hy). cbn [fst snd] in *. by subst k.
Qed.

(** X18. The institutional columns of a panel row: AdjCov (Coord) is the
    mean of the AdjCov (Coord) values present on the ICTWSS rows of the
    row's country with a year in 1990-1995, and it is missing when there is
    no such value; rows of other years and of other countries have no
    part in it. *)
Theorem institutional_columns_origin :
  forall src : sources,
    Forall (fun m =>
              let window :=
                filter (fun r => ictwss_country (iso3 r)
                                 = Some (country_of m.1.1.1)
                                 ∧ (1990 <= i_year r <= 1995)%Z)
                  (ictwss_institutions src) in
              col_AdjCov m = cell_mean (map AdjCov window)
              ∧ col_Coord m = cell_mean (map Coord window))
      (assembled src).
Proof.
  intros src. apply Forall_forall. intros m Hm. cbv zeta.
  unfold assembled, add_ictwss in Hm.
  apply elem_of_merge_left_lookup in Hm; [|apply NoDup_ictwss_baseline].
  unfold col_AdjCov, col_Coord. rewrite Hm. clear Hm.
  unfold Frame.matching, ictwss_baseline.
  set (c := country_of m.1.1.1).
  set (mk := fun c0 => {| b_country_code := c0; b_AdjCov := _; b_Coord := _ |}).
  rewrite (head_matching_keyed b_country_code mk _ c) by done.
  rewrite <- baseline_group.
  destruct (decide (c ∈ _)) as [Hin|Hnin]; simpl.
  - by rewrite !safe_mean_is_mean, !map_map.
  - rewrite elem_of_group_keys in Hnin.
    by rewrite (group_nil fst c _ Hnin).
Qed.

(** The Eurostat rows of a country and year. *)
Lemma eurostat_group raw (k : string * Z) :
  map snd
    (Frame.group fst k
       (omap (fun r => c ← eurostat_country (geo r);
                       y ← TIME_PERIOD r; Some ((c, y), OBS_VALUE r)) raw))
  = map OBS_VALUE
      (filter (fun r => eurostat_country (geo r) = Some k.1
                        ∧ TIME_PERIOD r = Some k.2) raw).
Proof.
  unfold Frame.group.
  apply (filter_omap_tagged
           (fun r => c ← eurostat_country (geo r); y ← TIME_PERIOD r; Some (c, y))
           OBS_VALUE).
  - intros r. destruct (eurostat_country (geo r)); [|done].
    by destruct (TIME_PERIOD r).
  - intros r. destruct k as [c y]. cbn [fst snd]. split.
    + intros [-> ->]. exists (c, y). done.
    + intros (k & Hk & Hfst). cbn [fst snd] in Hfst. subst k.
      destruct (eurostat_country (geo r)); [|done].
      destruct (TIME_PERIOD r); [|done]. by injection Hk as -> ->.
Qed.

Lemma eurostat_frame_lookup raw (k : string * Z) :
  from_option snd NaN
    (head (filter (fun p : string * Z * cell => p.1 = k) (eurostat_frame raw)))
  = Frame.first_valid
      (map OBS_VALUE
         (filter (fun r => eurostat_country (geo r) = Some k.1
                           ∧ TIME_PERIOD r = Some k.2) raw)).
Proof.
  rewrite <- eurostat_group. unfold eurostat_frame, Frame.groupby_agg.
  set (rows := omap _ raw).
  set (mk := fun k0 : string * Z => (k0, _)).
  rewrite (head_matching_keyed fst mk _ k) by done.
  destruct (decide (k ∈ _)) as [Hin|Hnin]; [done|].
  rewrite elem_of_group_keys in Hnin.
  by rewrite (group_nil fst k _ Hnin).
Qed.

(** X19. The macro columns of a panel row: gdp (unemployment) is the first
    OBS_VALUE present among the rows of the Eurostat file whose geo name maps
    to the row's country and whose TIME_PERIOD is the row's year, and it is
    missing when there is none; a row with an unmapped geo name or a
    TIME_PERIOD that is no number has no part in it. *)
Theorem macro_columns_origin :
  forall src : sources,
    Forall (fun m =>
              let of_row := fun r =>
                eurostat_country (geo r) = Some (country_of m.1.1.1)
                ∧ TIME_PERIOD r = Some (year_of m.1.1.1) in
              col_gdp m
              = Frame.first_valid
                  (map OBS_VALUE (filter of_row (eurostat_gdp src)))
              ∧ col_unemployment m
                = Frame.first_valid
                    (map OBS_VALUE (filter of_row (eurostat_une src))))
      (assembled src).
Proof.
  intros src. apply Forall_forall. intros m Hm. cbv zeta.
  unfold assembled, add_ictwss in Hm. apply elem_of_merge_left_fst in Hm.
  unfold add_une in Hm.
  pose proof (elem_of_merge_left_lookup _ _ _ _ _
                (NoDup_eurostat_frame _) Hm) as Hune.
  apply elem_of_merge_left_fst in Hm. unfold add_gdp in Hm.
  pose proof (elem_of_merge_left_lookup _ _ _ _ _
                (NoDup_eurostat_frame _) Hm) as Hgdp.
  unfold col_gdp, col_unemployment. rewrite Hune, Hgdp.
  unfold Frame.matching. split.
  - apply (eurostat_frame_lookup (eurostat_gdp src)
             (country_of m.1.1.1, year_of m.1.1.1)).
  - apply (eurostat_frame_lookup (eurostat_une src)
             (country_of m.1.1.1, year_of m.1.1.1)).
Qed.

End ColumnOrigins.
